(** * A shallow embedding of the origin CRUD scaffolding (Go)

    Sources: [orm/model.go], [service/helpers.go], the service engine
    ([GenerateCreateParameters], [GenerateUpdateParameters],
    [GenerateFilterParameters], [UpdateModelFromUpdateParameters]) and
    [repository/model_repository.go].

    Go maps are modelled by stdpp's [gmap string]; ranging over a Go map
    visits the entries in an unspecified order, which is modelled here by
    [map_to_list] (one fixed enumeration); the statements below only use
    membership and never that order. *)

From stdpp Require Import base gmap strings list fin_maps.
From Stdlib Require Import ZArith Ascii.
Open Scope string_scope.
Local Set Warnings "-register-all".

(* ================================================================== *)
(** ** 1. [orm.GetAllContentsWithUpdated] (orm/model.go) *)
(* ================================================================== *)

Module ContentMerge.
Section Merge.
(** [CM] is the type parameter, constrained by [IContentModel];
    [GetLanguageID] is its only method. *)
Context {CM : Type} (GetLanguageID : CM -> string).

(** [contentMap[content.GetLanguageID()] = content] for each element. *)
Definition put_all (contentMap : gmap string CM) (contents : list CM)
  : gmap string CM :=
  foldl (fun m content => <[GetLanguageID content := content]> m)
    contentMap contents.

Definition GetAllContentsWithUpdated (currentContents inputContents : list CM)
  : list CM :=
  let contentMap := put_all ∅ currentContents in
  let contentMap := put_all contentMap inputContents in
  (* for _, content := range contentMap { contents = append(contents, content) } *)
  (map_to_list contentMap).*2.

(** The last element of [l] whose language identifier is [k]. *)
Definition last_with (k : string) (l : list CM) : option CM :=
  last (filter (fun c => GetLanguageID c = k) l).

(** The element the merge should keep for key [k]: the last incoming
    one, otherwise the last current one. *)
Definition merged_at (k : string) (current incoming : list CM) : option CM :=
  match last_with k incoming with
  | Some y => Some y
  | None => last_with k current
  end.

(** Every entry of the map is stored under its own language identifier. *)
Definition keyed (m : gmap string CM) : Prop :=
  forall k c, m !! k = Some c -> GetLanguageID c = k.
End Merge.

(** Two content records that share the language key "en". *)
Definition dup_current : list (string * string) := [("en", "x"); ("en", "y")].
End ContentMerge.


(* ================================================================== *)
(** ** 2. The slice of Go's reflection the service package relies on *)
(* ================================================================== *)

Module GoReflect.

(** Go types as the service code inspects them.  [TStruct name methods
    fields] is a struct type: [name] is [Some n] for a defined (named)
    type and [None] for a type built by [reflect.StructOf]; [methods] is
    the list of methods declared on it; a field is (name, type,
    anonymous).  [TTime] is [time.Time], whose fields are unexported.
    Struct tags are not modelled: no claim depends on them. *)
Inductive gtype :=
| TString
| TUint
| TBool
| TTime
| TPtr (t : gtype)
| TSlice (t : gtype)
| TStruct (name : option string) (methods : list string)
          (fields : list (string * gtype * bool)).

Definition field := (string * gtype * bool)%type.
Definition fname (f : field) : string := f.1.1.
Definition ftype (f : field) : gtype := f.1.2.
Definition fanon (f : field) : bool := f.2.

(** [reflect.Kind] *)
Inductive kind := KString | KUint | KBool | KStruct | KPtr | KSlice.

#[global] Instance kind_eq_dec : EqDecision kind.
Proof. solve_decision. Defined.

Definition kind_of (t : gtype) : kind :=
  match t with
  | TString => KString | TUint => KUint | TBool => KBool
  | TTime => KStruct | TPtr _ => KPtr | TSlice _ => KSlice
  | TStruct _ _ _ => KStruct
  end.

(** [Type.Name()]: empty for unnamed types. *)
Definition type_name (t : gtype) : string :=
  match t with
  | TString => "string" | TUint => "uint" | TBool => "bool" | TTime => "Time"
  | TStruct (Some n) _ _ => n
  | _ => ""
  end.

Definition is_named (t : gtype) : bool :=
  match t with
  | TString | TUint | TBool | TTime | TStruct (Some _) _ _ => true
  | _ => false
  end.

(** [Type.Elem()] of a pointer or slice type. *)
Definition elem_type (t : gtype) : gtype :=
  match t with TPtr e | TSlice e => e | _ => t end.

(** The fields [Type.Field(i)] enumerates ([time.Time]'s are unexported
    and never match an exported name). *)
Definition struct_fields (t : gtype) : list field :=
  match t with TStruct _ _ fs => fs | _ => [] end.

Definition struct_methods (t : gtype) : list string :=
  match t with TStruct _ ms _ => ms | _ => [] end.

(** Type identity. *)
Fixpoint gtype_eqb (a b : gtype) : bool :=
  match a, b with
  | TString, TString | TUint, TUint | TBool, TBool | TTime, TTime => true
  | TPtr a, TPtr b => gtype_eqb a b
  | TSlice a, TSlice b => gtype_eqb a b
  | TStruct n1 m1 f1, TStruct n2 m2 f2 =>
      bool_decide (n1 = n2) && bool_decide (m1 = m2) &&
      (fix go (l1 l2 : list field) : bool :=
         match l1, l2 with
         | [], [] => true
         | (x1, t1, e1) :: r1, (x2, t2, e2) :: r2 =>
             bool_decide (x1 = x2) && gtype_eqb t1 t2 && Bool.eqb e1 e2 && go r1 r2
         | _, _ => false
         end) f1 f2
  | _, _ => false
  end.

Definition underlying (t : gtype) : gtype :=
  match t with TStruct _ _ fs => TStruct None [] fs | _ => t end.

(** [Type.AssignableTo]: identical types, or identical underlying types
    when at least one side is unnamed. *)
Definition assignable (src dst : gtype) : bool :=
  gtype_eqb src dst ||
  ((negb (is_named src) || negb (is_named dst)) &&
   gtype_eqb (underlying src) (underlying dst)).

(** [Type.ConvertibleTo] for the types above: assignable, identical
    underlying types, unnamed pointers to identical underlying types,
    and integer to string. *)
Definition convertible (src dst : gtype) : bool :=
  assignable src dst || gtype_eqb (underlying src) (underlying dst) ||
  match src, dst with
  | TPtr a, TPtr b => gtype_eqb (underlying a) (underlying b)
  | TUint, TString => true
  | _, _ => false
  end.

(** Go values.  [VPtr t None] is a nil [*t]; pointer targets are held by
    value (no claim below depends on two pointers sharing a target).
    [VUint] is a 64-bit unsigned integer, [VTime] an instant. *)
Inductive gvalue :=
| VStr (s : string)
| VUint (n : Z)
| VBool (b : bool)
| VTime (t : Z)
| VPtr (t : gtype) (target : option gvalue)
| VSlice (t : gtype) (items : list gvalue)
| VStruct (t : gtype) (fields : list gvalue).

Definition typeof (v : gvalue) : gtype :=
  match v with
  | VStr _ => TString | VUint _ => TUint | VBool _ => TBool | VTime _ => TTime
  | VPtr t _ => TPtr t | VSlice t _ => TSlice t | VStruct t _ => t
  end.

(** The zero value of a type ([reflect.New(t).Elem()]). *)
Fixpoint zero (t : gtype) : gvalue :=
  match t with
  | TString => VStr "" | TUint => VUint 0 | TBool => VBool false
  | TTime => VTime 0
  | TPtr e => VPtr e None
  | TSlice e => VSlice e []
  | TStruct _ _ fs =>
      VStruct t ((fix go (l : list field) : list gvalue :=
                    match l with [] => [] | (_, ft, _) :: r => zero ft :: go r end) fs)
  end.

(** [string(rune(n))]: [rune] truncates to 32 bits, invalid code points
    become U+FFFD; the result is the UTF-8 encoding. *)
Local Open Scope Z_scope.
Definition utf8_encode (n : Z) : string :=
  let r := Z.land n (Z.ones 32) in
  let r := if Z.ltb r (2 ^ 31) then r else r - 2 ^ 32 in
  let r := if (Z.ltb r 0 || Z.ltb 0x10FFFF r ||
               (Z.leb 0xD800 r && Z.leb r 0xDFFF))%bool then 0xFFFD else r in
  let b (z : Z) := Ascii.ascii_of_N (Z.to_N z) in
  if Z.ltb r 0x80 then String (b r) EmptyString
  else if Z.ltb r 0x800 then
    String (b (0xC0 + Z.shiftr r 6)) (String (b (0x80 + Z.land r 0x3F)) EmptyString)
  else if Z.ltb r 0x10000 then
    String (b (0xE0 + Z.shiftr r 12))
      (String (b (0x80 + Z.land (Z.shiftr r 6) 0x3F))
         (String (b (0x80 + Z.land r 0x3F)) EmptyString))
  else
    String (b (0xF0 + Z.shiftr r 18))
      (String (b (0x80 + Z.land (Z.shiftr r 12) 0x3F))
         (String (b (0x80 + Z.land (Z.shiftr r 6) 0x3F))
            (String (b (0x80 + Z.land r 0x3F)) EmptyString))).
Local Close Scope Z_scope.

(** [Value.Convert(dst)] for a convertible pair. *)
Definition convert (v : gvalue) (dst : gtype) : gvalue :=
  match v, dst with
  | VUint n, TString => VStr (utf8_encode n)
  | VStruct _ fs, _ => VStruct dst fs
  | VPtr _ p, TPtr e => VPtr e p
  | _, _ => v
  end.

(** Nesting depth of struct types: bounds the breadth-first searches. *)
Fixpoint tdepth (t : gtype) : nat :=
  match t with
  | TPtr e | TSlice e => tdepth e
  | TStruct _ _ fs =>
      S ((fix go (l : list field) : nat :=
            match l with [] => 0 | (_, ft, _) :: r => Nat.max (tdepth ft) (go r) end) fs)
  | _ => 0
  end.

(** A path to a (possibly promoted) field: indices and names. *)
Definition fpath := list (nat * string).

(** One level of the breadth-first search of [FieldByName]: the
    struct types reached at the current depth. *)
Definition level := list (fpath * gtype).

Definition indexed {A} (l : list A) : list (nat * A) := zip (seq 0 (length l)) l.

Definition next_level (lvl : level) : level :=
  flat_map (fun '(p, t) =>
    flat_map (fun '(i, f) =>
      match ftype f with
      | TStruct _ _ _ => if fanon f then [(app p [(i, fname f)], ftype f)] else []
      | _ => []
      end) (indexed (struct_fields t))) lvl.

Fixpoint bfs_field (fuel : nat) (lvl : level) (name : string) : option fpath :=
  match fuel with
  | 0 => None
  | S fuel =>
      let hits := flat_map (fun '(p, t) =>
        flat_map (fun '(i, f) =>
          if bool_decide (fname f = name) then [app p [(i, name)]] else [])
          (indexed (struct_fields t))) lvl in
      match hits with
      | [h] => Some h
      | _ :: _ :: _ => None            (* ambiguous at this depth *)
      | [] => bfs_field fuel (next_level lvl) name
      end
  end.

(** [Type.FieldByName(name)] (embedded structs by value). *)
Definition field_by_name (t : gtype) (name : string) : option fpath :=
  bfs_field (S (tdepth t)) [([], t)] name.

(** Method lookup with promotion through embedded fields
    ([Value.MethodByName]); [None] when absent or ambiguous. *)
Fixpoint bfs_method (fuel : nat) (lvl : level) (m : string) : option fpath :=
  match fuel with
  | 0 => None
  | S fuel =>
      match filter (fun '(_, t) => m ∈ struct_methods t) lvl with
      | [(p, _)] => Some p
      | _ :: _ :: _ => None
      | [] => bfs_method fuel (next_level lvl) m
      end
  end.

Definition method_by_name (t : gtype) (m : string) : option fpath :=
  bfs_method (S (tdepth t)) [([], t)] m.

(** [Type.Implements(IContentModel)]: has a [GetLanguageID] method. *)
Definition implements_content (t : gtype) : bool :=
  match method_by_name t "GetLanguageID" with Some _ => true | None => false end.

(** Exported identifier: starts with an upper-case letter. *)
Definition exported (n : string) : bool :=
  match n with
  | String c _ => let k := Ascii.nat_of_ascii c in bool_decide (65 <= k <= 90)%nat
  | EmptyString => false
  end.

(** [Value.Field(i)] along a path, and [Value.Set] at the end of it. *)
Fixpoint get_path (v : gvalue) (p : fpath) : option gvalue :=
  match p with
  | [] => Some v
  | (i, _) :: r =>
      match v with
      | VStruct _ fs => match fs !! i with Some f => get_path f r | None => None end
      | _ => None
      end
  end.

Fixpoint set_path (v : gvalue) (p : fpath) (x : gvalue) : gvalue :=
  match p with
  | [] => x
  | (i, _) :: r =>
      match v with
      | VStruct t fs => VStruct t (alter (fun f => set_path f r x) i fs)
      | _ => v
      end
  end.

(** [CanSet] of a field reached from an addressable struct: every field
    on the path is exported. *)
Definition can_set (p : fpath) : bool := forallb (fun '(_, n) => exported n) p.

(** The errors of the copier ([fmt.Errorf] values). *)
Inductive cerr :=
| TypeMismatch (src dst : gtype)        (* "type mismatch: %s → %s" *)
| FieldError (name : string) (e : cerr) (* "field %s: %w" *)
| NotStructs.                            (* "both values must be structs" *)

(** [for src.Kind() == reflect.Ptr && !src.IsNil() { src = src.Elem() }] *)
Fixpoint deref (v : gvalue) : gvalue :=
  match v with VPtr _ (Some w) => deref w | _ => v end.

(** The destination half of [copyField]: follow pointers on [dst],
    allocating [reflect.New] targets for nil ones, then assign or
    convert.  [dt] is the destination's type. *)
Fixpoint copy_into (dt : gtype) (dv : gvalue) (sv : gvalue) : gvalue * option cerr :=
  match dt with
  | TPtr t =>
      let inner := match dv with VPtr _ (Some d) => d | _ => zero t end in
      let '(d', e) := copy_into t inner sv in (VPtr t (Some d'), e)
  | _ =>
      let st := typeof sv in
      if assignable st dt then (sv, None)
      else if convertible st dt then (convert sv dt, None)
      else (dv, Some (TypeMismatch st dt))
  end.

(** The type a chain of pointers leads to. *)
Fixpoint pointee (t : gtype) : gtype :=
  match t with TPtr e => pointee e | _ => t end.

(** [copyField(dst, src)]: the new value of [dst] and the error. *)
Definition copyField (dv sv : gvalue) : gvalue * option cerr :=
  copy_into (typeof dv) dv (deref sv).

Definition is_struct (v : gvalue) : bool :=
  match kind_of (typeof v) with KStruct => true | _ => false end.

(** The fields of a struct value, named by its type. *)
Definition value_fields (v : gvalue) : list (string * gvalue) :=
  match v with
  | VStruct t vs => zip (fname <$> struct_fields t) vs
  | _ => []
  end.

(** The loop of [copyStruct] over the source fields. *)
Fixpoint copy_fields (dv : gvalue) (srcs : list (string * gvalue)) : gvalue * option cerr :=
  match srcs with
  | [] => (dv, None)
  | (name, sv) :: rest =>
      match field_by_name (typeof dv) name with
      | Some p =>
          if can_set p then
            match get_path dv p with
            | Some cur =>
                let '(cur', e) := copyField cur sv in
                let dv' := set_path dv p cur' in
                match e with
                | Some e => (dv', Some (FieldError name e))
                | None => copy_fields dv' rest
                end
            | None => copy_fields dv rest
            end
          else copy_fields dv rest
      | None => copy_fields dv rest
      end
  end.

(** [copyStruct(dst, src)] *)
Definition copyStruct (dv sv : gvalue) : gvalue * option cerr :=
  if is_struct dv && is_struct sv then copy_fields dv (value_fields sv)
  else (dv, Some NotStructs).

End GoReflect.

(* ================================================================== *)
(** ** 3. The parameter-shape generators of the service engine *)
(* ================================================================== *)

Module Engine.
Import GoReflect.

(** [strings.Contains] *)
Fixpoint str_contains (s sub : string) : bool :=
  String.prefix sub s ||
  match s with EmptyString => false | String _ s' => str_contains s' sub end.

(** [strings.HasSuffix] *)
Definition has_suffix (s suf : string) : bool :=
  let n := String.length s in
  let m := String.length suf in
  (m <=? n)%nat && String.eqb (String.substring (n - m) m s) suf.

(** [isBaseField]: the name contains, or the type is named, "Model" or
    "ContentModel". *)
Definition isBaseField (f : field) : bool :=
  existsb (fun base => str_contains (fname f) base || String.eqb (type_name (ftype f)) base)
    ["Model"; "ContentModel"].

(** [reflect.StructOf]: panics ([None]) on an unexported or a duplicate
    field name. *)
Definition StructOf (fs : list field) : option gtype :=
  if forallb (fun f => exported (fname f)) fs && bool_decide (NoDup (fname <$> fs))
  then Some (TStruct None [] fs) else None.

(** [Type.NumField()]/[Type.Field(i)] where the generators walk a type:
    a non-struct type makes [NumField] panic; the fields of [time.Time]
    are unexported, so any shape built from them makes [StructOf] panic. *)
Definition gen_fields (t : gtype) : option (list field) :=
  match t with TStruct _ _ fs => Some fs | _ => None end.

(** The set [addedFields]. *)
Abbreviation added := (gset string).

(** The loop body of [extractBaseEmbeddedFields]. *)
Definition extract_step (st : list field * added) (f : field) : list field * added :=
  let '(acc, ad) := st in
  if bool_decide (fname f = "LanguageID") && bool_decide (fname f ∉ ad)
  then (app acc [(fname f, ftype f, false)], {[fname f]} ∪ ad)
  else (acc, ad).

(** [extractBaseEmbeddedFields] *)
Definition extractBaseEmbeddedFields (embeddedType : gtype) (addedFields : added)
  : option (list field * added) :=
  fs ← gen_fields embeddedType;
  mret (foldl extract_step ([], addedFields) fs).

(** The loop body of [generateInnerStruct]. *)
Definition inner_step (includeForeignKeys : bool) (st : option (list field * added))
  (f : field) : option (list field * added) :=
  '(acc, ad) ← st;
  if fanon f && isBaseField f then
    '(emb, ad') ← extractBaseEmbeddedFields (ftype f) ad;
    mret (app acc emb, ad')
  else if bool_decide (fname f ∈ ad) then mret (acc, ad)
  else if includeForeignKeys && has_suffix (fname f) "ID" then mret (acc, ad)
  else mret (app acc [(fname f, ftype f, false)], {[fname f]} ∪ ad).

(** [generateInnerStruct] *)
Definition generateInnerStruct (innerType : gtype) (addedFields : added)
  (includeForeignKeys : bool) : option (gtype * added) :=
  fs ← gen_fields innerType;
  '(inner, ad) ← foldl (inner_step includeForeignKeys) (Some ([], addedFields)) fs;
  t ← StructOf inner;
  mret (t, ad).

(** [modelType], dereferenced once if it is a pointer type. *)
Definition model_type (t : gtype) : gtype :=
  match t with TPtr e => e | _ => t end.

(** The loop body shared by [GenerateCreateParameters] and
    [GenerateUpdateParameters]; [wrap] is the identity for Create and
    [reflect.PointerTo] for Update. *)
Definition params_step (wrap : gtype -> gtype) (st : option (list field * added))
  (f : field) : option (list field * added) :=
  '(acc, ad) ← st;
  if fanon f || isBaseField f then
    if fanon f && isBaseField f then
      '(emb, ad') ← extractBaseEmbeddedFields (ftype f) ad;
      mret (app acc emb, ad')
    else mret (acc, ad)
  else match ftype f with
    | TSlice e =>
        if bool_decide (kind_of e = KStruct) then
          '(inner, ad') ← generateInnerStruct e ad true;
          mret (app acc [(fname f, wrap (TSlice inner), false)], ad')
        else mret (acc, ad)
    | ft => mret (app acc [(fname f, wrap ft, false)], ad)
    end.

Definition generate_params (wrap : gtype -> gtype) (model : gtype) : option gtype :=
  fs ← gen_fields (model_type model);
  res ← foldl (params_step wrap) (Some ([], ∅)) fs;
  StructOf res.1.

Definition GenerateCreateParameters (model : gtype) : option gtype :=
  generate_params (fun t => t) model.

Definition GenerateUpdateParameters (model : gtype) : option gtype :=
  generate_params TPtr model.

(** [GenerateFilterParameters] *)
Definition filter_inner (innerType : gtype) (st : list field * added) : list field * added :=
  foldl (fun '(acc, ad) (f : field) =>
      if has_suffix (fname f) "ID" then (acc, ad)
      else if fanon f || isBaseField f then
        if bool_decide (fname f = "LanguageID") && bool_decide (fname f ∉ ad)
        then (app acc [(fname f, TPtr (ftype f), false)], {[fname f]} ∪ ad)
        else (acc, ad)
      else if bool_decide (fname f ∉ ad)
        then (app acc [(fname f, TPtr (ftype f), false)], {[fname f]} ∪ ad)
        else (acc, ad))
    st (struct_fields innerType).

Definition GenerateFilterParameters (model : gtype) : option gtype :=
  fs ← gen_fields (model_type model);
  let '(fields, _) := foldl (fun '(acc, ad) (f : field) =>
      if fanon f || isBaseField f then (acc, ad)
      else
        let flattened :=
          match ftype f with
          | TSlice e =>
              if bool_decide (kind_of e = KStruct) && implements_content e
              then Some (filter_inner e (acc, ad)) else None
          | _ => None
          end in
        match flattened with
        | Some st => st
        | None =>
            if bool_decide (fname f ∉ ad)
            then (app acc [(fname f, TPtr (ftype f), false)], {[fname f]} ∪ ad)
            else (acc, ad)
        end)
    ([], ∅) fs in
  StructOf fields.

End Engine.

(* ================================================================== *)
(** ** 4. Applying update parameters (service engine, helpers.go) *)
(* ================================================================== *)

Module Updater.
Import GoReflect.

(** [Value.String()]: the string itself, or "<T Value>" for other kinds. *)
Definition value_string (v : gvalue) : string :=
  match v with
  | VStr s => s
  | _ => "<" ++ type_name (typeof v) ++ " Value>"
  end.

(** The body of [orm.ContentModel.GetLanguageID], the only declaration
    of the method: [return content.LanguageID]. *)
Definition call_GetLanguageID (content : gvalue) : string :=
  match content with
  | VStruct t vs =>
      match list_find (fun f => fname f = "LanguageID") (struct_fields t) with
      | Some (i, _) => match vs !! i with Some v => value_string v | None => "" end
      | None => ""
      end
  | _ => ""
  end.

(** [getLanguageID]: the (promoted) method if there is one, else the
    [LanguageID] field, else "".  [None]: [FieldByName] panics on a
    non-struct value.  The values it is applied to are slice elements,
    hence addressable. *)
Definition getLanguageID (v : gvalue) : option string :=
  match method_by_name (typeof v) "GetLanguageID" with
  | Some p =>
      match get_path v p with
      | Some recv => Some (call_GetLanguageID recv)
      | None => Some ""
      end
  | None =>
      if is_struct v then
        match field_by_name (typeof v) "LanguageID" with
        | Some p => match get_path v p with
                    | Some f => Some (value_string f)
                    | None => Some ""
                    end
        | None => Some ""
        end
      else None
  end.

(** [Value.Len()]/[Value.Index(i)] of a slice; [None]: [Len] panics. *)
Definition slice_items (v : gvalue) : option (list gvalue) :=
  match v with VSlice _ xs => Some xs | _ => None end.

(** [handleContentUpdate(modelField, paramValue)]: the new value of the
    model's field and the returned error; [None] is a panic. *)
Definition put_existing (items : list gvalue) : option (gmap string gvalue) :=
  foldl (fun (om : option (gmap string gvalue)) item =>
      m ← om; langID ← getLanguageID item; mret (<[langID := item]> m))
    (Some ∅) items.

Definition put_updates (et : gtype) (contentMap : gmap string gvalue)
  (updates : list gvalue) : option (gmap string gvalue) :=
  foldl (fun (om : option (gmap string gvalue)) updateItem =>
      m ← om;
      langID ← getLanguageID updateItem;
      let '(newItem, err) := copyStruct (zero et) updateItem in
      match err with
      | None => mret (<[langID := newItem]> m)
      | Some _ => mret m
      end)
    (Some contentMap) updates.

Definition handleContentUpdate (modelField paramValue : gvalue)
  : option (gvalue * option cerr) :=
  match modelField with
  | VSlice et items =>
      (* 1. Populate with existing content *)
      contentMap ← put_existing items;
      (* 2. Process updates *)
      updates ← slice_items paramValue;
      contentMap ← put_updates et contentMap updates;
      (* 3. Rebuild slice *)
      mret (VSlice et (map_to_list contentMap).*2, None)
  | _ => None
  end.

Definition is_nil_ptr (v : gvalue) : bool :=
  match v with VPtr _ None => true | _ => false end.

(** [paramValue.Elem()] of a non-nil pointer. *)
Definition ptr_elem (v : gvalue) : gvalue :=
  match v with VPtr _ (Some w) => w | _ => v end.

(** The loop of [UpdateModelFromUpdateParameters] over the parameter
    fields; the model is updated in place, so on an error the fields
    already written stay written. *)
Fixpoint update_fields (modelVal : gvalue) (params : list (string * gvalue))
  : option (gvalue * option cerr) :=
  match params with
  | [] => Some (modelVal, None)
  | (name, paramValue) :: rest =>
      if is_nil_ptr paramValue then update_fields modelVal rest else
      match field_by_name (typeof modelVal) name with
      | None => update_fields modelVal rest
      | Some p =>
          if negb (can_set p) then update_fields modelVal rest else
          match get_path modelVal p with
          | None => update_fields modelVal rest
          | Some modelField =>
              if bool_decide (kind_of (typeof modelField) = KSlice) then
                let sliceValue :=
                  if bool_decide (kind_of (typeof paramValue) = KPtr)
                  then ptr_elem paramValue else paramValue in
                if bool_decide (name = "Contents") then
                  '(field', err) ← handleContentUpdate modelField sliceValue;
                  let modelVal' := set_path modelVal p field' in
                  match err with
                  | Some e => Some (modelVal', Some (FieldError name e))
                  | None => update_fields modelVal' rest
                  end
                else update_fields modelVal rest
              else
                let src := if bool_decide (kind_of (typeof paramValue) = KPtr)
                           then ptr_elem paramValue else paramValue in
                let '(field', err) := copyField modelField src in
                let modelVal' := set_path modelVal p field' in
                match err with
                | Some e => Some (modelVal', Some (FieldError name e))
                | None => update_fields modelVal' rest
                end
          end
      end
  end.

(** [UpdateModelFromUpdateParameters(model, updateParams)]: [model] is
    the struct [*model] points to; the result is the updated struct and
    the returned error; [None] is a panic ([NumField] of a non-struct). *)
Definition UpdateModelFromUpdateParameters (model updateParams : gvalue)
  : option (gvalue * option cerr) :=
  let paramsVal :=
    if bool_decide (kind_of (typeof updateParams) = KPtr)
    then ptr_elem updateParams else updateParams in
  if is_struct paramsVal && negb (is_nil_ptr updateParams)
  then update_fields model (value_fields paramsVal)
  else None.

(** The language identifier [getLanguageID] yields ("" on a panic). *)
Definition lang_of (v : gvalue) : string := default "" (getLanguageID v).

(** Step 2 of [handleContentUpdate] without panics: an update whose
    copy succeeds replaces the entry of its language; one whose copy
    fails changes nothing. *)
Definition apply_copied (et : gtype) (m : gmap string gvalue) (updates : list gvalue)
  : gmap string gvalue :=
  foldl (fun m u =>
      match copyStruct (zero et) u with
      | (newItem, None) => <[lang_of u := newItem]> m
      | (_, Some _) => m
      end) m updates.

End Updater.

(* ================================================================== *)
(** ** 5. The base models of [orm] and the example [Blog] model *)
(* ================================================================== *)

Module Models.
Import GoReflect.

(** [orm.Model] *)
Definition tModel : gtype :=
  TStruct (Some "Model") []
    [("ID", TUint, false); ("CreatedAt", TTime, false); ("UpdatedAt", TTime, false)].

(** [orm.Language] *)
Definition tLanguage : gtype :=
  TStruct (Some "Language") []
    [("ID", TString, false); ("Title", TString, false);
     ("CreatedAt", TTime, false); ("UpdatedAt", TTime, false)].

(** [orm.ContentModel], the only type declaring [GetLanguageID]. *)
Definition tContentModel : gtype :=
  TStruct (Some "ContentModel") ["GetLanguageID"]
    [("LanguageID", TString, false); ("Language", tLanguage, false);
     ("CreatedAt", TTime, false); ("UpdatedAt", TTime, false)].

(** [BlogContent] (main package) *)
Definition tBlogContent : gtype :=
  TStruct (Some "BlogContent") []
    [("ContentModel", tContentModel, true); ("Content", TString, false);
     ("BlogID", TUint, false)].

(** [Blog] (main package) *)
Definition tBlog : gtype :=
  TStruct (Some "Blog") []
    [("Model", tModel, true); ("Contents", TSlice tBlogContent, false);
     ("Owner", TString, false); ("IsPublished", TBool, false)].

(** A [BlogContent] value. *)
Definition blog_content (lang : string) (language : gvalue) (created updated : Z)
  (content : string) (blogID : Z) : gvalue :=
  VStruct tBlogContent
    [VStruct tContentModel [VStr lang; language; VTime created; VTime updated];
     VStr content; VUint blogID].

(** A [Blog] value. *)
Definition blog (id created updated : Z) (contents : list gvalue)
  (owner : string) (published : bool) : gvalue :=
  VStruct tBlog
    [VStruct tModel [VUint id; VTime created; VTime updated];
     VSlice tBlogContent contents; VStr owner; VBool published].

(** The element type of the generated update shape's [Contents]. *)
Definition tBlogContentParams : gtype :=
  TStruct None [] [("LanguageID", TString, false); ("Content", TString, false)].

(** The generated update shape of [Blog]. *)
Definition tBlogUpdate : gtype :=
  TStruct None []
    [("Contents", TPtr (TSlice tBlogContentParams), false);
     ("Owner", TPtr TString, false); ("IsPublished", TPtr TBool, false)].

(** Update parameters carrying only [Contents]: the given entries. *)
Definition blog_contents_update (entries : list (string * string)) : gvalue :=
  VStruct tBlogUpdate
    [VPtr (TSlice tBlogContentParams)
       (Some (VSlice tBlogContentParams
                ((fun '(lang, text) => VStruct tBlogContentParams [VStr lang; VStr text])
                   <$> entries)));
     VPtr TString None; VPtr TBool None].

(** Structs for the copier: a post with a [Note] and, as a source, its
    optional-field parameters. *)
Definition tPost : gtype := TStruct (Some "Post") [] [("Note", TString, false)].
Definition tPostPtr : gtype := TStruct (Some "PostPtr") [] [("Note", TPtr TString, false)].
Definition tPostParams : gtype := TStruct None [] [("Note", TPtr TString, false)].

(** Same-named fields [A] and [B]; [B] has incompatible types. *)
Definition tPair : gtype := TStruct None [] [("A", TString, false); ("B", TString, false)].
Definition tPairDst : gtype :=
  TStruct (Some "PairDst") [] [("A", TString, false); ("B", TBool, false)].

(** An existing English content, and an update element for it whose
    [Content] is a [bool], which the copier cannot put into a string. *)
Definition old_en : gvalue := blog_content "en" (zero tLanguage) 0 0 "old" 0.

Definition old_en_map : gmap string gvalue := <["en" := old_en]> ∅.

Definition tBadContentParams : gtype :=
  TStruct None [] [("LanguageID", TString, false); ("Content", TBool, false)].

Definition bad_update : gvalue := VStruct tBadContentParams [VStr "en"; VBool true].



End Models.

(* ================================================================== *)
(** ** 6. Where the fields of a generated shape come from *)
(* ================================================================== *)

Module ShapeSpec.
Import GoReflect Engine.

(** [r] is the [LanguageID] field of an anonymous base embedding among
    [fs], with its declared type. *)
Definition base_language_field (fs : list field) (r : field) : Prop :=
  exists f, f ∈ fs /\ fanon f = true /\ isBaseField f = true /\
    exists g, g ∈ struct_fields (ftype f) /\ fname g = "LanguageID" /\
      r = (fname g, ftype g, false).

(** A field of a nested shape built from the element fields [efs]: an
    element field that is not an anonymous base and whose name does not
    end in "ID", with its declared type, or a base [LanguageID]. *)
Definition nested_ok (efs : list field) (r : field) : Prop :=
  (exists f, f ∈ efs /\ fanon f && isBaseField f = false /\
     has_suffix (fname f) "ID" = false /\ r = (fname f, ftype f, false))
  \/ base_language_field efs r.

Definition nested_shape (e inner : gtype) : Prop :=
  exists ifs, inner = TStruct None [] ifs /\ Forall (nested_ok (struct_fields e)) ifs.

(** A top-level field of a shape built from the model fields [fs]: a
    direct field that is neither anonymous nor a base field, its type
    passed through [wrap] (a slice of structs re-typed to a slice of its
    nested shape first), or a base [LanguageID] with its declared type. *)
Definition top_ok (wrap : gtype -> gtype) (fs : list field) (r : field) : Prop :=
  (exists f, f ∈ fs /\ fanon f = false /\ isBaseField f = false /\
     ((exists e inner, ftype f = TSlice e /\ kind_of e = KStruct /\
         nested_shape e inner /\ r = (fname f, wrap (TSlice inner), false))
      \/ ((forall e, ftype f <> TSlice e) /\ r = (fname f, wrap (ftype f), false))))
  \/ base_language_field fs r.

(** Occurrences of [LanguageID] among fields, and in a create shape
    counting those inside nested shapes (slices of structs). *)
Definition own_lang (fs : list field) : nat :=
  length (filter (fun r => fname r = "LanguageID") fs).

Definition nested_fields (t : gtype) : list field :=
  match t with TSlice (TStruct _ _ fs) => fs | _ => [] end.

Definition lang_occ (r : field) : nat :=
  if bool_decide (fname r = "LanguageID") then 1 else own_lang (nested_fields (ftype r)).

Definition lang_total (fs : list field) : nat := sum_list_with lang_occ fs.

Definition lang_added (ad : added) : nat :=
  if bool_decide ("LanguageID" ∈ ad) then 1 else 0.

End ShapeSpec.

(* ================================================================== *)
(** ** 7. The GORM repository (repository/model_repository.go) *)
(* ================================================================== *)

Module Repository.

(** The calls the repository makes on the database handle, in order. *)
Inductive event :=
| EBegin | EPreload (assoc : string) | EFirst | EFind
| ECreate | ESave | EDelete | ECommit | ERollback.

(** The [.Error] each call of the backend reports ([None] is nil). *)
Record backend := {
  begin_err : option string;
  first_err : option string;
  find_err : option string;
  create_err : option string;
  save_err : option string;
  delete_err : option string;
  commit_err : option string;
  rollback_err : option string
}.

(** The rollback on a failed step: [rbErr] if the rollback fails, the
    step's error otherwise. *)
Definition rollback (b : backend) (tr : list event) (err : string)
  : list event * option string :=
  match rollback_err b with
  | Some rbErr => (app tr [ERollback], Some rbErr)
  | None => (app tr [ERollback], Some err)
  end.

Definition commit (b : backend) (tr : list event) : list event * option string :=
  match commit_err b with
  | Some err => (app tr [ECommit], Some err)
  | None => (app tr [ECommit], None)
  end.

(** [GetByID]; [preload] is [hasContents(model)]. *)
Definition GetByID (b : backend) (preload : bool) : list event * option string :=
  match begin_err b with
  | Some err => ([EBegin], Some err)
  | None =>
      let tr := EBegin :: (if preload then [EPreload "Contents"] else []) in
      match first_err b with
      | Some err => (app tr [EFirst], Some err)
      | None => (app tr [EFirst], None)
      end
  end.

(** [GetAll]; the scopes do not touch the transaction. *)
Definition GetAll (b : backend) (preload : bool) : list event * option string :=
  match begin_err b with
  | Some err => ([EBegin], Some err)
  | None =>
      let tr := EBegin :: (if preload then [EPreload "Contents"] else []) in
      match find_err b with
      | Some err => (app tr [EFind], Some err)
      | None => (app tr [EFind], None)
      end
  end.

Definition Create (b : backend) : list event * option string :=
  match begin_err b with
  | Some err => ([EBegin], Some err)
  | None =>
      match create_err b with
      | Some err => rollback b [EBegin; ECreate] err
      | None => commit b [EBegin; ECreate]
      end
  end.

Definition Update (b : backend) : list event * option string :=
  match begin_err b with
  | Some err => ([EBegin], Some err)
  | None =>
      match save_err b with
      | Some err => rollback b [EBegin; ESave] err
      | None => commit b [EBegin; ESave]
      end
  end.

Definition Delete (b : backend) : list event * option string :=
  match begin_err b with
  | Some err => ([EBegin], Some err)
  | None =>
      match first_err b with
      | Some err => rollback b [EBegin; EFirst] err
      | None =>
          match delete_err b with
          | Some err => rollback b [EBegin; EFirst; EDelete] err
          | None => commit b [EBegin; EFirst; EDelete]
          end
      end
  end.

(** A backend on which every call succeeds. *)
Definition all_ok : backend :=
  {| begin_err := None; first_err := None; find_err := None; create_err := None;
     save_err := None; delete_err := None; commit_err := None; rollback_err := None |}.

(** The error of a failing step once the transaction is rolled back. *)
Definition after_rollback (b : backend) (err : string) : string :=
  default err (rollback_err b).

End Repository.

(* ================================================================== *)
(** ** 8. [orm.ContentModel] and its helpers (orm/model.go) *)
(* ================================================================== *)

Module OrmContent.

(** [orm.Language] *)
Record Language := mkLanguage {
  Language_ID : string;
  Language_Title : string;
  Language_CreatedAt : Z;
  Language_UpdatedAt : Z
}.

(** [orm.ContentModel] *)
Record ContentModel := mkContentModel {
  LanguageID : string;
  ContentModel_Language : Language;
  ContentModel_CreatedAt : Z;
  ContentModel_UpdatedAt : Z
}.

(** [func (content ContentModel) GetLanguageID() string] *)
Definition GetLanguageID (content : ContentModel) : string := LanguageID content.

(** [IsContentContained]: some element has the same [LanguageID]. *)
Fixpoint IsContentContained (content : ContentModel) (contents : list ContentModel) : bool :=
  match contents with
  | [] => false
  | c :: rest =>
      if String.eqb (LanguageID c) (LanguageID content) then true
      else IsContentContained content rest
  end.

(** [func (content ContentModel) IsContained(contents []ContentModel) bool] *)
Definition IsContained (content : ContentModel) (contents : list ContentModel) : bool :=
  IsContentContained content contents.

End OrmContent.

(* ================================================================== *)
(** ** 9. [orm.ExtractContent] (orm/model.go) *)
(* ================================================================== *)

Module OrmExtract.
Import GoReflect.

(** The inner loop of [ExtractContent] over the fields of one input
    item: [newContent.FieldByName(fieldName)] (panics when [newContent]
    is not a struct), then [contentField.Set(inputFieldValue)] when the
    field is valid and settable; [Set] panics unless the value is
    assignable to the field's type. *)
Fixpoint extract_fields (newContent : gvalue) (fields : list (string * gvalue))
  : option gvalue :=
  match fields with
  | [] => Some newContent
  | (fieldName, inputFieldValue) :: rest =>
      if negb (is_struct newContent) then None else
      match field_by_name (typeof newContent) fieldName with
      | Some p =>
          if can_set p then
            match get_path newContent p with
            | Some contentField =>
                if assignable (typeof inputFieldValue) (typeof contentField)
                then extract_fields (set_path newContent p inputFieldValue) rest
                else None
            | None => extract_fields newContent rest
            end
          else extract_fields newContent rest
      | None => extract_fields newContent rest
      end
  end.

(** [ExtractContent[CM](inputContents)]; [contentType] is [CM].  [None]
    is a panic: the input is not a slice, an item is not a struct
    ([NumField]), or a [Set] in the loop above panics. *)
Definition ExtractContent (contentType : gtype) (inputContents : gvalue)
  : option (list gvalue) :=
  match inputContents with
  | VSlice _ items =>
      mapM (fun inputItem =>
          if is_struct inputItem
          then extract_fields (zero contentType) (value_fields inputItem)
          else None) items
  | _ => None
  end.

End OrmExtract.

(* ================================================================== *)
(** ** 10. [toSnakeCase] (service/helpers.go) *)
(* ================================================================== *)

Module Snake.

(** On a string of ASCII characters every rune is one byte, so the byte
    index [i] of [for i, r := range str] is the position of [r], and
    [unicode.IsUpper]/[unicode.ToLower] are the ASCII ones below. *)
Definition IsUpper (r : Ascii.ascii) : bool :=
  let n := Ascii.nat_of_ascii r in (65 <=? n)%nat && (n <=? 90)%nat.

Definition ToLower (r : Ascii.ascii) : Ascii.ascii :=
  if IsUpper r then Ascii.ascii_of_nat (Ascii.nat_of_ascii r + 32) else r.

Definition is_ascii (s : string) : bool :=
  forallb (fun r => (Ascii.nat_of_ascii r <? 128)%nat) (String.list_ascii_of_string s).

(** The loop from position [i] on. *)
Fixpoint to_snake_from (i : nat) (s : string) : string :=
  match s with
  | EmptyString => EmptyString
  | String r rest =>
      let tail := String (ToLower r) (to_snake_from (S i) rest) in
      if IsUpper r && (0 <? i)%nat then String "_"%char tail else tail
  end.

Definition toSnakeCase (str : string) : string := to_snake_from 0 str.

(** The string without its underscores. *)
Definition strip_underscores (s : string) : list Ascii.ascii :=
  filter (fun r => r <> "_"%char) (String.list_ascii_of_string s).

End Snake.

(* ================================================================== *)
(** ** 11. [handleSliceUpdate] and [mergeContents] (service/helpers.go) *)
(* ================================================================== *)

Module SliceUpdate.
Import GoReflect Updater.

(** [Value.Len()]/[Value.Index(i)]: a slice's elements, or a string's
    bytes (a [uint8] value, represented as [VUint]); [Len] panics on the
    other kinds used here. *)
Definition len_index (v : gvalue) : option (list gvalue) :=
  match v with
  | VSlice _ xs => Some xs
  | VStr s => Some ((fun r => VUint (Z.of_nat (Ascii.nat_of_ascii r))) <$> String.list_ascii_of_string s)
  | _ => None
  end.

(** [contentMap[getLanguageID(elem)] = elem] for each element. *)
Definition put_langs (om : option (gmap string gvalue)) (elems : list gvalue)
  : option (gmap string gvalue) :=
  foldl (fun (om : option (gmap string gvalue)) elem =>
      m ← om; langID ← getLanguageID elem; mret (<[langID := elem]> m))
    om elems.

(** [mergeContents(existing, newContents)]; [MakeSlice(existing.Type())]
    panics unless [existing] is a slice. *)
Definition mergeContents (existing newContents : gvalue) : option gvalue :=
  olds ← len_index existing;
  news ← len_index newContents;
  contentMap ← put_langs (Some ∅) olds;
  contentMap ← put_langs (Some contentMap) news;
  match existing with
  | VSlice et _ => mret (VSlice et (map_to_list contentMap).*2)
  | _ => None
  end.

(** One iteration of the copy loop: a pointer is dereferenced (a nil one
    gives the invalid [Value], which [copyStruct] rejects as not a
    struct), then copied into a new zero element. *)
Definition copy_elem (elemType : gtype) (srcElem : gvalue) : gvalue * option cerr :=
  match srcElem with
  | VPtr _ None => (zero elemType, Some NotStructs)
  | VPtr _ (Some w) => copyStruct (zero elemType) w
  | _ => copyStruct (zero elemType) srcElem
  end.

(** The copied elements, or the index and error of the first failure. *)
Fixpoint copy_elems (elemType : gtype) (i : nat) (srcs : list gvalue)
  : list gvalue + (nat * cerr) :=
  match srcs with
  | [] => inl []
  | srcElem :: rest =>
      let '(dstElem, err) := copy_elem elemType srcElem in
      match err with
      | Some e => inr (i, e)
      | None =>
          match copy_elems elemType (S i) rest with
          | inl ds => inl (dstElem :: ds)
          | inr x => inr x
          end
      end
  end.

(** ["element %d: %w"] *)
Inductive slice_err := ElementError (i : nat) (e : cerr).

(** [handleSliceUpdate(modelField, paramValue)]: the new value of the
    field and the returned error; [None] is a panic.  [Type().Elem()]
    panics on a field that is neither a slice nor a pointer. *)
Definition handleSliceUpdate (modelField paramValue : gvalue)
  : option (gvalue * option slice_err) :=
  elemType ← match typeof modelField with
             | TSlice e | TPtr e => Some e
             | _ => None
             end;
  srcs ← len_index paramValue;
  match copy_elems elemType 0 srcs with
  | inr (i, e) => mret (modelField, Some (ElementError i e))
  | inl news =>
      merged ← mergeContents modelField (VSlice elemType news);
      mret (merged, None)
  end.

End SliceUpdate.

(* ================================================================== *)
(** ** 12. [FillModelFromCreateParameters] (service engine) *)
(* ================================================================== *)

Module Filler.
Import GoReflect Updater.

(** The errors it returns. *)
Inductive fill_err :=
| CannotSet (name : string)                   (* "model field %s cannot be set" *)
| ElemError (name : string) (j : nat) (e : cerr) (* "%s[%d]: %w" *)
| FieldErr (name : string) (e : cerr).          (* "%s: %w" *)

(** One element of a slice parameter, written into the zero element
    [newSlice.Index(j)] of type [et]: a nil pointer is skipped (the
    element stays zero), a non-nil one is dereferenced once; structs go
    through [copyStruct], anything else through [copyField]. *)
Definition fill_elem (et : gtype) (srcElem : gvalue) : gvalue * option cerr :=
  let dstElem := zero et in
  match srcElem with
  | VPtr _ None => (dstElem, None)
  | _ =>
      let srcElem := ptr_elem srcElem in
      if is_struct srcElem && is_struct dstElem then copyStruct dstElem srcElem
      else copyField dstElem srcElem
  end.

Fixpoint fill_elems (et : gtype) (j : nat) (srcs : list gvalue)
  : list gvalue + (nat * cerr) :=
  match srcs with
  | [] => inl []
  | srcElem :: rest =>
      let '(d, err) := fill_elem et srcElem in
      match err with
      | Some e => inr (j, e)
      | None =>
          match fill_elems et (S j) rest with
          | inl ds => inl (d :: ds)
          | inr x => inr x
          end
      end
  end.

(** The loop over the fields of the create parameters; [modelElem] is
    the model being filled.  [FieldByName] panics when it is not a
    struct, [MakeSlice] when a slice parameter meets a model field that
    is not a slice.  On an error the model is dropped ([return nil, err]). *)
Fixpoint fill_fields (modelElem : gvalue) (params : list (string * gvalue))
  : option (gvalue + fill_err) :=
  match params with
  | [] => Some (inl modelElem)
  | (name, cpFieldVal) :: rest =>
      if negb (is_struct modelElem) then None else
      match field_by_name (typeof modelElem) name with
      | None => fill_fields modelElem rest
      | Some p =>
          if negb (can_set p) then Some (inr (CannotSet name)) else
          match get_path modelElem p with
          | None => fill_fields modelElem rest
          | Some modelField =>
              match cpFieldVal with
              | VSlice _ srcs =>
                  match typeof modelField with
                  | TSlice et =>
                      match fill_elems et 0 srcs with
                      | inl ds => fill_fields (set_path modelElem p (VSlice et ds)) rest
                      | inr (j, e) => Some (inr (ElemError name j e))
                      end
                  | _ => None
                  end
              | _ =>
                  let '(field', err) := copyField modelField cpFieldVal in
                  match err with
                  | Some e => Some (inr (FieldErr name e))
                  | None => fill_fields (set_path modelElem p field') rest
                  end
              end
          end
      end
  end.

(** [FillModelFromCreateParameters(createParams)] for the engine of the
    model type [modelType]: the filled model or the error; [None] is a
    panic ([NumField] of a non-struct, or of the invalid [Value] a nil
    pointer yields). *)
Definition FillModelFromCreateParameters (modelType : gtype) (createParams : gvalue)
  : option (gvalue + fill_err) :=
  let cpVal :=
    if bool_decide (kind_of (typeof createParams) = KPtr)
    then ptr_elem createParams else createParams in
  if is_struct cpVal && negb (is_nil_ptr createParams)
  then fill_fields (zero modelType) (value_fields cpVal)
  else None.

End Filler.

(* ================================================================== *)
(** ** 13. The HTTP handlers (service/handler.go) *)
(* ================================================================== *)

Module Handlers.
Import GoReflect Engine Updater Filler Repository.

(** [hasContents(model)] (repository/repository.go) on the model's type:
    a field [Contents] whose type is a slice of an [IContentModel]
    implementation.  [None]: [NumField] panics on a non-struct. *)
Definition hasContents (t : gtype) : option bool :=
  let typ := match kind_of t with KPtr | KSlice => elem_type t | _ => t end in
  match typ with
  | TStruct _ _ fs =>
      Some (existsb (fun f =>
              bool_decide (fname f = "Contents") &&
              match ftype f with TSlice e => implements_content e | _ => false end) fs)
  | TTime => Some false
  | _ => None
  end.

(** [v.FieldByName("Model").FieldByName("ID").Uint()] at the start of
    [GenericRepository.Update]; [None]: one of the three calls panics
    (a missing field gives the zero [Value]). *)
Definition model_id (v : gvalue) : option Z :=
  if negb (is_struct v) then None else
  p ← field_by_name (typeof v) "Model";
  m ← get_path v p;
  if negb (is_struct m) then None else
  q ← field_by_name (typeof m) "ID";
  match get_path m q with Some (VUint n) => Some n | _ => None end.

(** What a handler sends. *)
Inductive response :=
| ErrorJSON (status : Z) (error_code : string)  (* [StopWithJSON(status, {"error_code": ...})] *)
| ObjectJSON (status : Z) (object : gvalue)     (* [StopWithJSON(status, object)] *)
| NoContent                                     (* [StopWithStatus(StatusNoContent)] *)
| Panic.

(** [GenericRepository.GetByID] with [hasContents] evaluated after a
    successful [Begin]; [None]: [hasContents] panics. *)
Definition repo_GetByID (b : backend) (modelType : gtype)
  : option (list event * option string) :=
  match begin_err b with
  | Some err => Some ([EBegin], Some err)
  | None => preload ← hasContents modelType; Some (GetByID b preload)
  end.

(** [modelService.Create].  [readBody pt] is [ctx.ReadBody] into the
    generated parameters of type [pt] ([None]: a decoding error); the
    database calls of the repository go to [b].  The engine's generators
    only ever return a nil error, so the [GENERATE_CREATE_PARAMS_ERROR]
    branch has no counterpart. *)
Definition Create_handler (modelType : gtype) (readBody : gtype -> option gvalue)
  (b : backend) : response * list event :=
  match GenerateCreateParameters modelType with
  | None => (Panic, [])
  | Some pt =>
      match readBody pt with
      | None => (ErrorJSON 400 "PARSE_CREATE_PARAMS_ERROR", [])
      | Some createParams =>
          match FillModelFromCreateParameters modelType createParams with
          | None => (Panic, [])
          | Some (inr _) => (ErrorJSON 400 "GENERATE_CREATE_MODEL_ERROR", [])
          | Some (inl model) =>
              let '(tr, err) := Create b in
              match err with
              | Some _ => (ErrorJSON 400 "CREATE_ERROR", tr)
              | None => (ObjectJSON 201 model, tr)
              end
          end
      end
  end.

(** [modelService.UpdatePatch].  [bget] and [bupd] answer the calls of
    the repository's [GetByID] and [Update]; [loaded] is the object
    [First] loads. *)
Definition UpdatePatch_handler (modelType : gtype) (bget bupd : backend)
  (loaded : gvalue) (readBody : gtype -> option gvalue) : response * list event :=
  match repo_GetByID bget modelType with
  | None => (Panic, [EBegin])
  | Some (tr1, Some _) => (ErrorJSON 400 "NOT_FOUND", tr1)
  | Some (tr1, None) =>
      match GenerateUpdateParameters modelType with
      | None => (Panic, tr1)
      | Some pt =>
          match readBody pt with
          | None => (ErrorJSON 400 "PARSE_UPDATE_PARAMS_ERROR", tr1)
          | Some updateParams =>
              match UpdateModelFromUpdateParameters loaded updateParams with
              | None => (Panic, tr1)
              | Some (_, Some _) => (ErrorJSON 400 "GENERATE_UPDATE_MODEL_ERROR", tr1)
              | Some (model, None) =>
                  match model_id model with
                  | None => (Panic, tr1)
                  | Some _ =>
                      let '(tr2, err) := Update bupd in
                      match err with
                      | Some _ => (ErrorJSON 400 "UPDATE_ERROR", app tr1 tr2)
                      | None => (ObjectJSON 200 model, app tr1 tr2)
                      end
                  end
              end
          end
      end
  end.

(** [GenericRepository.GetAll()] (no scopes): [hasContents(models)] is
    evaluated on [[]T] after a successful [Begin]. *)
Definition repo_GetAll (b : backend) (modelType : gtype)
  : option (list event * option string) :=
  match begin_err b with
  | Some err => Some ([EBegin], Some err)
  | None => preload ← hasContents (TSlice modelType); Some (GetAll b preload)
  end.

(** [modelService.GetByID]: [id] is [ctx.Params().GetUint("id")]
    ([None]: a parse error); [loaded] is the object [First] loads. *)
Definition GetByID_handler (modelType : gtype) (id : option Z) (b : backend)
  (loaded : gvalue) : response * list event :=
  match id with
  | None => (ErrorJSON 400 "CANT_READ_ID", [])
  | Some _ =>
      match repo_GetByID b modelType with
      | None => (Panic, [EBegin])
      | Some (tr, Some _) => (ErrorJSON 400 "FETCH_READ_OBJECT_ERROR", tr)
      | Some (tr, None) => (ObjectJSON 200 loaded, tr)
      end
  end.

(** [modelService.GetAll]; [loaded] are the objects [Find] loads. *)
Definition GetAll_handler (modelType : gtype) (b : backend) (loaded : list gvalue)
  : response * list event :=
  match repo_GetAll b modelType with
  | None => (Panic, [EBegin])
  | Some (tr, Some _) => (ErrorJSON 400 "FETCH_ERROR", tr)
  | Some (tr, None) => (ObjectJSON 200 (VSlice modelType loaded), tr)
  end.

(** [modelService.Delete] *)
Definition Delete_handler (b : backend) : response * list event :=
  let '(tr, err) := Delete b in
  match err with
  | Some _ => (ErrorJSON 400 "DELETE_ERROR", tr)
  | None => (NoContent, tr)
  end.

End Handlers.

(* ================================================================== *)
(** ** 14. Example payloads for the service engine *)
(* ================================================================== *)

Module Examples.
Import GoReflect Models.

(** The generated create shape of [Blog] and of [BlogContent]. *)
Definition tBlogCreate : gtype :=
  TStruct None []
    [("Contents", TSlice tBlogContentParams, false);
     ("Owner", TString, false); ("IsPublished", TBool, false)].

Definition tBlogContentCreate : gtype :=
  TStruct None []
    [("LanguageID", TString, false); ("Content", TString, false);
     ("BlogID", TUint, false)].

(** A decoded create payload ([ReadBody] fills the [*params] the
    generator returns). *)
Definition blog_create (entries : list (string * string)) (owner : string)
  (published : bool) : gvalue :=
  VPtr tBlogCreate (Some (VStruct tBlogCreate
    [VSlice tBlogContentParams
       ((fun '(lang, text) => VStruct tBlogContentParams [VStr lang; VStr text])
          <$> entries);
     VStr owner; VBool published])).

Definition blog_content_create (lang text : string) (blogID : Z) : gvalue :=
  VPtr tBlogContentCreate
    (Some (VStruct tBlogContentCreate [VStr lang; VStr text; VUint blogID])).

(** An update payload that leaves [Contents] out and may set [Owner]
    and [IsPublished]. *)
Definition blog_update (owner : option string) (published : option bool) : gvalue :=
  VPtr tBlogUpdate (Some (VStruct tBlogUpdate
    [VPtr (TSlice tBlogContentParams) None;
     VPtr TString (VStr <$> owner); VPtr TBool (VBool <$> published)])).

(** A model with a plain (not embedded) field whose name contains
    "Model". *)
Definition tProduct : gtype :=
  TStruct (Some "Product") []
    [("Model", tModel, true); ("ModelNumber", TString, false); ("Name", TString, false)].

(** A create [Contents] element and the [BlogContent] it fills. *)
Definition param_of : string * string -> gvalue :=
  fun '(lang, text) => VStruct tBlogContentParams [VStr lang; VStr text].
Definition content_of : string * string -> gvalue :=
  fun '(lang, text) => blog_content lang (zero tLanguage) 0 0 text 0.

(** An update element for a new language. *)
Definition ar_param : gvalue := VStruct tBlogContentParams [VStr "ar"; VStr "x"].

End Examples.

(* ================================================================== *)
(** ** 15. Predicates the properties below are stated with *)
(* ================================================================== *)

Module Predicates.
Import GoReflect Engine Snake.

(** [toSnakeCase]'s output alphabet: no upper-case letter. *)
Definition no_upper (s : string) : bool :=
  forallb (fun r => negb (IsUpper r)) (String.list_ascii_of_string s).

(** What a filter field is, given the model's direct fields [fs]. *)
Definition filter_ok (fs : list field) (r : field) : Prop :=
  (exists e, ftype r = TPtr e) /\ fanon r = false /\
  (has_suffix (fname r) "ID" = true ->
     exists f, f ∈ fs /\ fanon f = false /\ isBaseField f = false /\
       fname r = fname f /\ ftype r = TPtr (ftype f)).

(** The hits of [FieldByName(name)] among the direct fields. *)
Definition hit_of (name : string) : nat * field -> list fpath :=
  fun '(j, g) => if bool_decide (fname g = name) then [[(j, name)]] else [].

(** Field values of the declared types, in order. *)
Definition typed (vs : list gvalue) (fs : list field) : Prop :=
  Forall2 (fun v f => typeof v = ftype f) vs fs.

(** A path found by [FieldByName(name)] in a struct with fields [fs]
    starts at a field named [name] or at an embedded one. *)
Definition head_ok (fs : list field) (name : string) (q : fpath) : Prop :=
  exists i x r f, q = (i, x) :: r /\ fs !! i = Some f /\ (fname f = name \/ fanon f = true).

(** Every struct of a search level below the top is reached through an
    embedded field of [fs]. *)
Definition level_ok (fs : list field) (lvl : level) : Prop :=
  forall p t, In (p, t) lvl -> exists i x r f, p = (i, x) :: r /\ fs !! i = Some f /\ fanon f = true.

End Predicates.

(* ================================================================== *)
(** ** Proofs: content merge *)
(* ================================================================== *)

Module MergeProofs.
Import ContentMerge.
Section Facts.
Context {CM : Type} (key : CM -> string).

Lemma last_with_snoc k l x :
  last_with key k (l ++ [x]) =
    if decide (key x = k) then Some x else last_with key k l.
Proof.
  unfold last_with. rewrite filter_app, (list.filter_singleton _ x []).
  case_decide.
  - by rewrite last_snoc.
  - by rewrite app_nil_r.
Qed.

Lemma put_all_lookup m l k :
  put_all key m l !! k =
    match last_with key k l with Some c => Some c | None => m !! k end.
Proof.
  induction l as [|x l IH] using rev_ind; [done|].
  unfold put_all in *. rewrite foldl_app. simpl.
  rewrite last_with_snoc, lookup_insert.
  destruct (decide (key x = k)); [done | exact IH].
Qed.

Lemma last_with_Some k l c :
  last_with key k l = Some c -> key c = k /\ c ∈ l.
Proof.
  unfold last_with. intros H. apply last_Some_elem_of in H.
  apply list_elem_of_filter in H. tauto.
Qed.

Lemma last_with_None k l :
  last_with key k l = None <-> k ∉ key <$> l.
Proof.
  induction l as [|x l IH] using rev_ind; [set_solver|].
  rewrite last_with_snoc, fmap_app. simpl.
  case_decide; subst; [split; [done|set_solver]|].
  rewrite IH. set_solver.
Qed.



Lemma put_all_keyed m l : keyed key m -> keyed key (put_all key m l).
Proof.
  intros Hm k c. rewrite put_all_lookup.
  destruct (last_with key k l) eqn:E.
  - intros [= <-]. by apply last_with_Some in E as [? _].
  - apply Hm.
Qed.

Lemma merge_map_lookup current incoming k :
  put_all key (put_all key ∅ current) incoming !! k =
    merged_at key k current incoming.
Proof.
  rewrite !put_all_lookup, lookup_empty. unfold merged_at.
  by destruct (last_with key k incoming), (last_with key k current).
Qed.

Lemma elem_of_values (m : gmap string CM) x :
  x ∈ (map_to_list m).*2 <-> exists k, m !! k = Some x.
Proof.
  rewrite list_elem_of_fmap. split.
  - intros [[k c] [-> Hin]]. exists k. by apply elem_of_map_to_list.
  - intros [k Hk]. exists (k, x). split; [done|]. by apply elem_of_map_to_list.
Qed.

Lemma keys_of_values (m : gmap string CM) :
  keyed key m -> key <$> (map_to_list m).*2 = (map_to_list m).*1.
Proof.
  intros Hm. rewrite <- list_fmap_compose. apply list_fmap_ext.
  intros i [k c] Hi. simpl. apply (Hm k c), elem_of_map_to_list.
  by eapply list_elem_of_lookup_2.
Qed.

Lemma merged_at_is_Some k current incoming :
  is_Some (merged_at key k current incoming) <->
    k ∈ key <$> current \/ k ∈ key <$> incoming.
Proof.
  unfold merged_at.
  destruct (last_with key k incoming) eqn:Ei.
  - split; [|done]. intros _. right.
    apply last_with_Some in Ei as [<- Hc]. by apply list_elem_of_fmap_2.
  - apply last_with_None in Ei.
    destruct (last_with key k current) eqn:Ec.
    + split; [|done]. intros _. left.
      apply last_with_Some in Ec as [<- Hc]. by apply list_elem_of_fmap_2.
    + apply last_with_None in Ec. split; [intros []; discriminate | tauto].
Qed.

Lemma last_with_NoDup l x :
  NoDup (key <$> l) -> x ∈ l -> last_with key (key x) l = Some x.
Proof.
  induction l as [|y l IH] using rev_ind; [set_solver|].
  rewrite fmap_app. simpl. intros Hnd Hx.
  apply NoDup_app in Hnd as (Hnd & Hdisj & _).
  rewrite last_with_snoc.
  apply elem_of_app in Hx as [Hx | Hx%list_elem_of_singleton].
  - case_decide as Hk.
    + exfalso. apply (Hdisj (key x)); [by apply list_elem_of_fmap_2|].
      rewrite Hk. set_solver.
    + by apply IH.
  - subst. by rewrite decide_True.
Qed.

(** The members of the merge, keyed by language identifier. *)
Lemma merge_members (current incoming : list CM) :
  let out := GetAllContentsWithUpdated key current incoming in
  NoDup (key <$> out) /\
  (forall k, k ∈ key <$> out <-> k ∈ key <$> current \/ k ∈ key <$> incoming) /\
  (forall x, x ∈ out <-> merged_at key (key x) current incoming = Some x).
Proof.
  unfold GetAllContentsWithUpdated. cbn zeta.
  set (m := put_all key (put_all key ∅ current) incoming).
  assert (Hk : keyed key m) by (apply put_all_keyed, put_all_keyed; intros ??; done).
  rewrite (keys_of_values m Hk). split; [apply NoDup_fst_map_to_list|]. split.
  - intros k. rewrite <- merged_at_is_Some. subst m.
    rewrite <- merge_map_lookup, list_elem_of_fmap. split.
    + intros [[k' c] [-> Hin]]. apply elem_of_map_to_list in Hin. by exists c.
    + intros [c Hc]. exists (k, c). split; [done|]. by apply elem_of_map_to_list.
  - intros x. rewrite elem_of_values. subst m. split.
    + intros [k Hx]. pose proof (Hx' := Hx).
      apply put_all_keyed in Hx'; [|apply put_all_keyed; intros ??; done].
      subst k. by rewrite <- merge_map_lookup.
    + intros Hx. exists (key x). by rewrite merge_map_lookup.
Qed.

(** C1: the merge keeps exactly one element per language key of either
    input; for each key it is the (last) incoming element with that key
    when there is one, otherwise the (last) current one. *)
Theorem GetAllContentsWithUpdated_spec (current incoming : list CM) :
  let out := GetAllContentsWithUpdated key current incoming in
  NoDup (key <$> out) /\
  (forall k, k ∈ key <$> out <-> k ∈ key <$> current \/ k ∈ key <$> incoming) /\
  (forall x, x ∈ out <-> merged_at key (key x) current incoming = Some x).
Proof. apply merge_members. Qed.

(** C9 (amended): when the keys of a side are pairwise distinct, merging
    it with an empty side yields the same set of elements. *)
Theorem merge_empty_side_set (current incoming : list CM) :
  NoDup (key <$> current) -> NoDup (key <$> incoming) ->
  (forall x, x ∈ GetAllContentsWithUpdated key current [] <-> x ∈ current) /\
  (forall x, x ∈ GetAllContentsWithUpdated key [] incoming <-> x ∈ incoming).
Proof.
  intros Hc Hi.
  destruct (merge_members current []) as (_ & _ & H1).
  destruct (merge_members [] incoming) as (_ & _ & H2).
  split; intros x; [rewrite H1 | rewrite H2]; unfold merged_at; simpl.
  - split; [intros []%last_with_Some; tauto | by apply last_with_NoDup].
  - destruct (last_with key (key x) incoming) eqn:E.
    + split; [intros [= <-]; by apply last_with_Some in E as [_ ?]|].
      intros Hx. rewrite <- E. by apply last_with_NoDup.
    + split; [done|]. intros Hx. apply last_with_None in E.
      exfalso. apply E. by apply list_elem_of_fmap_2.
Qed.
End Facts.

(** C9 counterexample: with a repeated key the merge with an empty side
    drops all but the last record of that key. *)
Lemma merge_empty_right_not_set :
  ~ (forall x, x ∈ GetAllContentsWithUpdated fst dup_current [] <-> x ∈ dup_current).
Proof.
  intros H. specialize (H ("en", "x")).
  assert (E : GetAllContentsWithUpdated fst dup_current [] = [("en", "y")])
    by reflexivity.
  rewrite E in H. unfold dup_current in H.
  assert (Hin : ("en", "x") ∈ [("en", "x"); ("en", "y")]) by set_solver.
  apply H in Hin. apply list_elem_of_singleton in Hin. discriminate.
Qed.

(** C9 witness: distinct keys on both sides. *)
Lemma merge_empty_side_set_witness :
  NoDup (fst <$> [("en", "x")]) /\ NoDup (fst <$> [("ar", "y"); ("en", "z")]) /\
  ((forall x, x ∈ GetAllContentsWithUpdated fst [("en", "x")] [] <-> x ∈ [("en", "x")]) /\
   (forall x, x ∈ GetAllContentsWithUpdated fst [] [("ar", "y"); ("en", "z")]
              <-> x ∈ [("ar", "y"); ("en", "z")])).
Proof.
  assert (H1 : NoDup (fst <$> [("en", "x")]))
    by (apply (bool_decide_unpack (NoDup (fst <$> [("en", "x")]))); vm_compute; reflexivity).
  assert (H2 : NoDup (fst <$> [("ar", "y"); ("en", "z")]))
    by (apply (bool_decide_unpack (NoDup (fst <$> [("ar", "y"); ("en", "z")])));
        vm_compute; reflexivity).
  split; [exact H1|]. split; [exact H2|].
  exact (merge_empty_side_set fst [("en", "x")] [("ar", "y"); ("en", "z")] H1 H2).
Defined.
End MergeProofs.

(* ================================================================== *)
(** ** Proofs: applying update parameters *)
(* ================================================================== *)

Module UpdateProofs.
Import GoReflect Engine Models Updater.

(** C2: updating a [Blog] whose contents are an "en" and an "ar" entry
    with a single "en" entry yields exactly two entries: the "ar" one
    unchanged, and the "en" one replaced by the element built from the
    update (the parameters' fields, zero elsewhere); the update shape is
    the one the engine generates for [Blog]. *)
Theorem update_merges_contents_by_language
  (en_lang ar_lang : gvalue) (en_c en_u ar_c ar_u en_bid ar_bid : Z)
  (en_text ar_text new_text : string) (id c u : Z) (owner : string) (pub : bool) :
  GenerateUpdateParameters tBlog = Some tBlogUpdate /\
  (exists contents,
    UpdateModelFromUpdateParameters
      (blog id c u [blog_content "en" en_lang en_c en_u en_text en_bid;
                    blog_content "ar" ar_lang ar_c ar_u ar_text ar_bid] owner pub)
      (blog_contents_update [("en", new_text)])
    = Some (blog id c u contents owner pub, None) /\
    contents ≡ₚ [blog_content "ar" ar_lang ar_c ar_u ar_text ar_bid;
                 blog_content "en" (zero tLanguage) 0 0 new_text 0]) /\
  (exists contents,
    UpdateModelFromUpdateParameters
      (blog id c u [blog_content "ar" ar_lang ar_c ar_u ar_text ar_bid;
                    blog_content "en" en_lang en_c en_u en_text en_bid] owner pub)
      (blog_contents_update [("en", new_text)])
    = Some (blog id c u contents owner pub, None) /\
    contents ≡ₚ [blog_content "ar" ar_lang ar_c ar_u ar_text ar_bid;
                 blog_content "en" (zero tLanguage) 0 0 new_text 0]).
Proof.
  split; [|split].
  - vm_compute; reflexivity.
  - exists [blog_content "en" (zero tLanguage) 0 0 new_text 0;
            blog_content "ar" ar_lang ar_c ar_u ar_text ar_bid].
    split; [vm_compute; reflexivity | apply Permutation_swap].
  - exists [blog_content "en" (zero tLanguage) 0 0 new_text 0;
            blog_content "ar" ar_lang ar_c ar_u ar_text ar_bid].
    split; [vm_compute; reflexivity | apply Permutation_swap].
Qed.

Lemma getLanguageID_struct v :
  is_struct v = true -> getLanguageID v = Some (lang_of v).
Proof.
  intros Hs. unfold lang_of, getLanguageID.
  destruct (method_by_name (typeof v) "GetLanguageID");
    [destruct (get_path v _); reflexivity|].
  rewrite Hs. destruct (field_by_name (typeof v) "LanguageID");
    [destruct (get_path v _)|]; reflexivity.
Qed.

Lemma put_updates_spec et m updates :
  Forall (fun u => is_struct u = true) updates ->
  put_updates et m updates = Some (apply_copied et m updates).
Proof.
  intros Hall. unfold put_updates, apply_copied.
  revert m. induction Hall as [|u us Hu Hus IH]; intros m; [reflexivity|].
  simpl. rewrite (getLanguageID_struct u Hu). simpl.
  destruct (copyStruct (zero et) u) as [ni [e|]]; apply IH.
Qed.

Lemma handleContentUpdate_spec et items pt updates m0 :
  put_existing items = Some m0 ->
  Forall (fun u => is_struct u = true) updates ->
  handleContentUpdate (VSlice et items) (VSlice pt updates) =
    Some (VSlice et (map_to_list (apply_copied et m0 updates)).*2, None).
Proof.
  intros Hm Hall. unfold handleContentUpdate. rewrite Hm. simpl.
  by rewrite put_updates_spec.
Qed.

(** C10: an update element whose copy into a fresh content element
    fails is dropped without an error: the existing entry of its
    language stays, [handleContentUpdate] returns no error, and the
    update of a [Blog] whose parameters carry only [Contents] succeeds. *)
Theorem content_copy_failure_dropped (items updates : list gvalue) (m0 : gmap string gvalue)
  (pt : gtype) (id c u : Z) (owner : string) (pub : bool) :
  put_existing items = Some m0 ->
  Forall (fun u => is_struct u = true) updates ->
  (forall m upd rest, snd (copyStruct (zero tBlogContent) upd) <> None ->
     apply_copied tBlogContent m (upd :: rest) = apply_copied tBlogContent m rest) /\
  handleContentUpdate (VSlice tBlogContent items) (VSlice pt updates) =
    Some (VSlice tBlogContent (map_to_list (apply_copied tBlogContent m0 updates)).*2, None) /\
  UpdateModelFromUpdateParameters (blog id c u items owner pub)
    (VStruct tBlogUpdate [VPtr (TSlice pt) (Some (VSlice pt updates));
                          VPtr TString None; VPtr TBool None])
  = Some (blog id c u (map_to_list (apply_copied tBlogContent m0 updates)).*2 owner pub, None).
Proof.
  intros Hm Hall.
  pose proof (handleContentUpdate_spec tBlogContent items pt updates m0 Hm Hall) as HC.
  split; [|split; [exact HC|]].
  - intros m upd rest Hf. unfold apply_copied. cbn [foldl].
    destruct (copyStruct (zero tBlogContent) upd) as [ni [e|]]; [reflexivity|].
    simpl in Hf. congruence.
  - unfold UpdateModelFromUpdateParameters. cbn -[handleContentUpdate].
    repeat (first [rewrite bool_decide_true by (done || (vm_compute; lia))
                  | rewrite bool_decide_false by (done || (vm_compute; lia))];
            cbn -[handleContentUpdate]).
    rewrite HC. reflexivity.
Qed.

Lemma content_copy_failure_dropped_witness :
  snd (copyStruct (zero tBlogContent) bad_update) <> None /\
  UpdateModelFromUpdateParameters (blog 1 0 0 [old_en] "o" false)
    (VStruct tBlogUpdate [VPtr (TSlice tBadContentParams)
                            (Some (VSlice tBadContentParams [bad_update]));
                          VPtr TString None; VPtr TBool None])
  = Some (blog 1 0 0 [old_en] "o" false, None).
Proof.
  split; [vm_compute; congruence|].
  rewrite (proj2 (proj2 (content_copy_failure_dropped [old_en] [bad_update]
             old_en_map tBadContentParams 1 0 0 "o" false
             ltac:(vm_compute; reflexivity)
             ltac:(repeat constructor)))).
  vm_compute. reflexivity.
Defined.

End UpdateProofs.

(* ================================================================== *)
(** ** Proofs: the copier *)
(* ================================================================== *)

Module CopyProofs.
Import GoReflect Models.

(** C4 (code_bug): a source field holding a nil pointer is not skipped:
    [copyField] stops dereferencing at the nil pointer, still follows
    (and allocates) the destination's pointers, and then fails with a
    type mismatch between [*string] and [string]. *)
Theorem copyStruct_nil_source_pointer :
  copyStruct (VStruct tPost [VStr "kept"]) (VStruct tPostParams [VPtr TString None])
    = (VStruct tPost [VStr "kept"],
       Some (FieldError "Note" (TypeMismatch (TPtr TString) TString))) /\
  copyStruct (VStruct tPostPtr [VPtr TString None])
             (VStruct tPostParams [VPtr TString None])
    = (VStruct tPostPtr [VPtr TString (Some (VStr ""))],
       Some (FieldError "Note" (TypeMismatch (TPtr TString) TString))).
Proof. split; vm_compute; reflexivity. Qed.

(** C5 counterexample: the field copied before the mismatching one has
    already been overwritten when the error is returned. *)
Lemma copyStruct_mismatch_not_atomic :
  let '(dst', err) := copyStruct (VStruct tPairDst [VStr ""; VBool false])
                                 (VStruct tPair [VStr "x"; VStr "y"]) in
  err = Some (FieldError "B" (TypeMismatch TString TBool)) /\
  get_path dst' [(0, "A")] <> Some (VStr "").
Proof. vm_compute. split; [reflexivity | discriminate]. Qed.

Lemma copy_into_error dt dv sv d' e :
  copy_into dt dv sv = (d', Some e) -> e = TypeMismatch (typeof sv) (pointee dt).
Proof.
  revert dv d'. induction dt as [| | | |t IH|t|n ms fs]; intros dv d' H; cbn beta iota zeta delta [copy_into] in H;
    try (destruct (assignable _ _); [|destruct (convertible _ _)];
         simplify_eq; reflexivity).
  destruct (copy_into t _ sv) as [d'' e'] eqn:E. simplify_eq.
  eapply IH. exact E.
Qed.

Lemma copy_fields_app dv l1 l2 :
  copy_fields dv (l1 ++ l2) =
    match copy_fields dv l1 with
    | (d, None) => copy_fields d l2
    | r => r
    end.
Proof.
  revert dv. induction l1 as [|[name sv] l1 IH]; intros dv; [reflexivity|].
  simpl. destruct (field_by_name (typeof dv) name) as [p|]; [|apply IH].
  destruct (can_set p); [|apply IH].
  destruct (get_path dv p) as [cur|]; [|apply IH].
  destruct (copyField cur sv) as [cur' [e|]]; [reflexivity | apply IH].
Qed.

(** C5 (amended): at a same-named field pair whose types are neither
    assignable nor convertible, [copyStruct] stops with a [TypeMismatch]
    naming the field, the (dereferenced) source type and the destination
    type; the destination keeps what the earlier fields wrote (and the
    pointers allocated on the failing field), and the later fields are
    not looked at. *)
Theorem copyStruct_stops_at_mismatch dv sv pre name v post d1 p cur cur' e :
  is_struct dv = true -> is_struct sv = true ->
  value_fields sv = app pre ((name, v) :: post) ->
  copy_fields dv pre = (d1, None) ->
  field_by_name (typeof d1) name = Some p -> can_set p = true ->
  get_path d1 p = Some cur ->
  copyField cur v = (cur', Some e) ->
  e = TypeMismatch (typeof (deref v)) (pointee (typeof cur)) /\
  copyStruct dv sv = (set_path d1 p cur', Some (FieldError name e)).
Proof.
  intros Hd Hs Hv Hpre Hp Hset Hcur Hcopy. split.
  - unfold copyField in Hcopy. by apply copy_into_error in Hcopy.
  - unfold copyStruct. rewrite Hd, Hs, Hv. simpl.
    rewrite copy_fields_app, Hpre. simpl.
    by rewrite Hp, Hset, Hcur, Hcopy.
Qed.

(** C5 witness: the pair structs, failing at [B] after [A] was copied. *)
Lemma copyStruct_stops_at_mismatch_witness :
  is_struct (VStruct tPairDst [VStr ""; VBool false]) = true /\
  is_struct (VStruct tPair [VStr "x"; VStr "y"]) = true /\
  value_fields (VStruct tPair [VStr "x"; VStr "y"]) = app [("A", VStr "x")] [("B", VStr "y")] /\
  copy_fields (VStruct tPairDst [VStr ""; VBool false]) [("A", VStr "x")]
    = (VStruct tPairDst [VStr "x"; VBool false], None) /\
  field_by_name (typeof (VStruct tPairDst [VStr "x"; VBool false])) "B" = Some [(1, "B")] /\
  can_set [(1, "B")] = true /\
  get_path (VStruct tPairDst [VStr "x"; VBool false]) [(1, "B")] = Some (VBool false) /\
  copyField (VBool false) (VStr "y") = (VBool false, Some (TypeMismatch TString TBool)) /\
  (TypeMismatch TString TBool = TypeMismatch (typeof (deref (VStr "y"))) (pointee (typeof (VBool false))) /\
   copyStruct (VStruct tPairDst [VStr ""; VBool false]) (VStruct tPair [VStr "x"; VStr "y"])
     = (set_path (VStruct tPairDst [VStr "x"; VBool false]) [(1, "B")] (VBool false),
        Some (FieldError "B" (TypeMismatch TString TBool)))).
Proof.
  do 8 (split; [vm_compute; reflexivity|]).
  apply (copyStruct_stops_at_mismatch _ _ [("A", VStr "x")] "B" (VStr "y") []);
    vm_compute; reflexivity.
Defined.

End CopyProofs.

(* ================================================================== *)
(** ** Proofs: the generated parameter shapes *)
(* ================================================================== *)

Module ShapeProofs.
Import GoReflect Engine Models ShapeSpec.

(** C3 (code_bug): for [Blog], whose [Contents] elements embed
    [orm.ContentModel], the filter shape hoists [Content] and drops
    [BlogID], but has no [LanguageID] field at all: the [HasSuffix "ID"]
    test runs before the [LanguageID] special case, and the embedded
    [ContentModel] field itself is not named [LanguageID]. *)
Theorem filter_params_blog_no_language_id :
  GenerateFilterParameters tBlog =
    Some (TStruct None []
            [("Content", TPtr TString, false); ("Owner", TPtr TString, false);
             ("IsPublished", TPtr TBool, false)]) /\
  implements_content tBlogContent = true /\
  (forall shape, GenerateFilterParameters tBlog = Some shape ->
     "LanguageID" ∉ fname <$> struct_fields shape).
Proof.
  split; [vm_compute; reflexivity|]. split; [vm_compute; reflexivity|].
  intros shape H. vm_compute in H. injection H as <-. vm_compute. set_solver.
Qed.

(** *** Invariants of the generators' loops *)

Lemma foldl_opt_none {A B} (F : option A -> B -> option A) (l : list B) :
  (forall b, F None b = None) -> foldl F None l = None.
Proof. intros HN. induction l as [|b l IH]; simpl; [done|]. by rewrite HN. Qed.

Lemma foldl_opt_inv {A B} (F : option A -> B -> option A) (P : A -> Prop)
  (l : list B) (x0 r : A) :
  (forall b, F None b = None) ->
  (forall x b y, b ∈ l -> P x -> F (Some x) b = Some y -> P y) ->
  P x0 -> foldl F (Some x0) l = Some r -> P r.
Proof.
  intros HN. revert x0. induction l as [|b l IH]; intros x0 HS Hx H; simpl in H.
  - congruence.
  - destruct (F (Some x0) b) as [y|] eqn:E.
    + apply (IH y); [|eapply HS; [left|..]; eauto|exact H].
      intros x b' y' Hb; apply HS; by right.
    + rewrite foldl_opt_none in H by exact HN. done.
Qed.

Lemma gen_fields_struct t fs : gen_fields t = Some fs -> struct_fields t = fs.
Proof. destruct t; simpl; congruence. Qed.

Lemma StructOf_Some fs t : StructOf fs = Some t -> t = TStruct None [] fs.
Proof. unfold StructOf. destruct (_ && _); congruence. Qed.

Lemma has_suffix_language_id : has_suffix "LanguageID" "ID" = true.
Proof. reflexivity. Qed.

Lemma lang_added_union_other ad n :
  n <> "LanguageID" -> lang_added ({[n]} ∪ ad) = lang_added ad.
Proof.
  intros Hn. unfold lang_added. by rewrite (bool_decide_ext ("LanguageID" ∈ {[n]} ∪ ad)
    ("LanguageID" ∈ ad)) by set_solver.
Qed.

Lemma own_lang_app l k : own_lang (app l k) = own_lang l + own_lang k.
Proof. unfold own_lang. by rewrite filter_app, length_app. Qed.

Lemma lang_total_app l k : lang_total (app l k) = lang_total l + lang_total k.
Proof. unfold lang_total. apply sum_list_with_app. Qed.

(** [extractBaseEmbeddedFields] adds nothing, or the first [LanguageID]
    field of the embedded type when it is not yet added. *)
Lemma extract_fold fs acc0 ad0 :
  foldl extract_step (acc0, ad0) fs = (acc0, ad0) \/
  (("LanguageID" ∉ ad0) /\ (exists g, g ∈ fs /\ fname g = "LanguageID" /\
     foldl extract_step (acc0, ad0) fs =
       (app acc0 [(fname g, ftype g, false)], {["LanguageID"]} ∪ ad0))).
Proof.
  revert acc0 ad0. induction fs as [|f fs IH]; intros acc0 ad0; simpl; [by left|].
  destruct (bool_decide (fname f = "LanguageID")) eqn:E1;
    [destruct (bool_decide (fname f ∉ ad0)) eqn:E2|]; simpl.
  - apply bool_decide_eq_true in E1, E2. right. split; [by rewrite <- E1|].
    exists f. split; [left|split; [done|]].
    destruct (IH (app acc0 [(fname f, ftype f, false)]) ({[fname f]} ∪ ad0))
      as [->|[Hn _]]; [by rewrite E1|]. rewrite E1 in Hn. set_solver.
  - destruct (IH acc0 ad0) as [->|[Hn [g [Hg Hr]]]]; [by left|right].
    split; [done|]. exists g. split; [by right|done].
  - destruct (IH acc0 ad0) as [->|[Hn [g [Hg Hr]]]]; [by left|right].
    split; [done|]. exists g. split; [by right|done].
Qed.

Lemma extract_spec et ad emb ad' :
  extractBaseEmbeddedFields et ad = Some (emb, ad') ->
  (emb = [] /\ ad' = ad) \/
  (("LanguageID" ∉ ad) /\ (exists g, g ∈ struct_fields et /\ fname g = "LanguageID" /\
     emb = [(fname g, ftype g, false)] /\ ad' = {["LanguageID"]} ∪ ad)).
Proof.
  unfold extractBaseEmbeddedFields. destruct (gen_fields et) as [fs|] eqn:Ef;
    simpl; [|done]. intros H. injection H as H.
  rewrite (gen_fields_struct _ _ Ef).
  destruct (extract_fold fs [] ad) as [E|[Hn [g [Hg [Hgn E]]]]]; rewrite E in H;
    injection H as <- <-; [by left|right].
  split; [done|]. by exists g.
Qed.

Lemma extract_in_base fs f ad emb ad' :
  f ∈ fs -> fanon f = true -> isBaseField f = true ->
  extractBaseEmbeddedFields (ftype f) ad = Some (emb, ad') ->
  Forall (base_language_field fs) emb.
Proof.
  intros Hf Ha Hb H. destruct (extract_spec _ _ _ _ H) as [[-> _]|[_ [g [Hg [Hgn [-> _]]]]]];
    [done|]. constructor; [|done]. exists f. repeat split; try done. by exists g.
Qed.

Lemma extract_lang_count et ad emb ad' :
  extractBaseEmbeddedFields et ad = Some (emb, ad') ->
  own_lang emb + lang_added ad = lang_added ad' /\ lang_total emb + lang_added ad = lang_added ad'
  /\ ad ⊆ ad'.
Proof.
  intros H. destruct (extract_spec _ _ _ _ H) as [[-> ->]|[Hn [g [_ [Hgn [-> ->]]]]]];
    [split; [done|split; [done|set_solver]]|].
  unfold lang_added, own_lang, lang_total. rewrite (bool_decide_eq_false_2 _ Hn).
  rewrite bool_decide_eq_true_2 by set_solver. simpl.
  unfold lang_occ; simpl; rewrite !bool_decide_eq_true_2 by done.
  rewrite filter_cons_True by done. simpl. split; [done|split; [done|set_solver]].
Qed.

(** The nested shape of [generateInnerStruct ... true]. *)
Lemma inner_provenance efs ad0 r :
  foldl (inner_step true) (Some ([], ad0)) efs = Some r ->
  Forall (nested_ok efs) r.1.
Proof.
  apply (foldl_opt_inv _ (fun st => Forall (nested_ok efs) st.1)); [done| |done].
  intros [acc ad] f y Hf Hacc H. unfold inner_step in H. simpl in H.
  destruct (fanon f && isBaseField f) eqn:Eb.
  - destruct (extractBaseEmbeddedFields (ftype f) ad) as [[emb ad']|] eqn:Ee;
      simpl in H; [|done]. injection H as <-. simpl. apply Forall_app. split; [done|].
    apply andb_true_iff in Eb as [Ha Hb].
    eapply Forall_impl; [eapply extract_in_base; eauto|]. intros x Hx; by right.
  - destruct (bool_decide (fname f ∈ ad)); simpl in H; [by injection H as <-|].
    destruct (has_suffix (fname f) "ID") eqn:Es; simpl in H; [by injection H as <-|].
    injection H as <-. simpl. apply Forall_app. split; [done|].
    constructor; [|done]. left. exists f. done.
Qed.

Lemma inner_lang_count efs ad0 acc ad :
  foldl (inner_step true) (Some ([], ad0)) efs = Some (acc, ad) ->
  own_lang acc + lang_added ad0 = lang_added ad /\ ad0 ⊆ ad.
Proof.
  intros Hfold.
  apply (foldl_opt_inv (inner_step true)
           (fun st => own_lang st.1 + lang_added ad0 = lang_added st.2 /\ ad0 ⊆ st.2) efs ([], ad0) (acc, ad)); [done| |split; [done|set_solver]|exact Hfold].
  intros [acc1 ad1] f [acc2 ad2] Hf [Hc Hs] H. simpl in Hc, Hs |- *. unfold inner_step in H. simpl in H.
  destruct (fanon f && isBaseField f) eqn:Eb.
  - destruct (extractBaseEmbeddedFields (ftype f) ad1) as [[emb ad']|] eqn:Ee;
      simpl in H; [|done]. injection H as <- <-.
    destruct (extract_lang_count _ _ _ _ Ee) as [He [_ Hs']].
    rewrite own_lang_app. split; [lia|set_solver].
  - destruct (bool_decide (fname f ∈ ad1)); simpl in H; [by injection H as <- <-|].
    destruct (has_suffix (fname f) "ID") eqn:Es; simpl in H; [by injection H as <- <-|].
    injection H as <- <-.
    assert (Hn : fname f <> "LanguageID").
    { intros Hn. rewrite Hn, has_suffix_language_id in Es. done. }
    rewrite own_lang_app, lang_added_union_other by done.
    unfold own_lang at 2. simpl. rewrite filter_cons_False by done. simpl.
    split; [lia|set_solver].
Qed.

Lemma generateInnerStruct_spec e ad inner ad' :
  generateInnerStruct e ad true = Some (inner, ad') ->
  nested_shape e inner /\ own_lang (struct_fields inner) + lang_added ad = lang_added ad'.
Proof.
  unfold generateInnerStruct. destruct (gen_fields e) as [efs|] eqn:Ef; simpl; [|done].
  destruct (foldl (inner_step true) (Some ([], ad)) efs) as [[acc ad1]|] eqn:Efold;
    simpl; [|done].
  destruct (StructOf acc) as [t|] eqn:Es; simpl; [|done]. intros H; injection H as <- <-.
  apply StructOf_Some in Es as ->. split.
  - exists acc. split; [done|]. rewrite (gen_fields_struct _ _ Ef).
    exact (inner_provenance efs ad _ Efold).
  - exact (proj1 (inner_lang_count _ _ _ _ Efold)).
Qed.

(** The top-level loop of [GenerateCreateParameters] and
    [GenerateUpdateParameters]. *)
Lemma params_provenance wrap fs r :
  foldl (params_step wrap) (Some ([], ∅)) fs = Some r ->
  Forall (top_ok wrap fs) r.1.
Proof.
  apply (foldl_opt_inv _ (fun st => Forall (top_ok wrap fs) st.1)); [done| |done].
  intros [acc ad] f y Hf Hacc H. unfold params_step in H. simpl in H.
  destruct (fanon f) eqn:Ea, (isBaseField f) eqn:Eb; simpl in H.
  - destruct (extractBaseEmbeddedFields (ftype f) ad) as [[emb ad']|] eqn:Ee;
      simpl in H; [|done]. injection H as <-. simpl. apply Forall_app. split; [done|].
    eapply Forall_impl; [eapply extract_in_base; eauto|]. intros x Hx; by right.
  - by injection H as <-.
  - by injection H as <-.
  - assert (Hadd : forall t, (forall e, ftype f <> TSlice e) ->
              Some (app acc [(fname f, wrap t, false)], ad) = Some y -> t = ftype f ->
              Forall (top_ok wrap fs) y.1).
    { intros t Hne Hy ->. injection Hy as <-. simpl. apply Forall_app. split; [done|].
      constructor; [|done]. left. exists f. repeat split; try done. by right. }
    destruct (ftype f) as [| | | |t|e|n ms gfs] eqn:Et;
      try (eapply Hadd; [intros e' Hc; rewrite Hc in Et; discriminate|exact H|reflexivity]).
    destruct (bool_decide (kind_of e = KStruct)) eqn:Ek; simpl in H; [|by injection H as <-].
    destruct (generateInnerStruct e ad true) as [[inner ad']|] eqn:Ei; simpl in H; [|done].
    injection H as <-. simpl. apply Forall_app. split; [done|].
    constructor; [|done]. left. exists f. repeat split; try done. left.
    exists e, inner. apply bool_decide_eq_true in Ek.
    repeat split; try done. exact (proj1 (generateInnerStruct_spec _ _ _ _ Ei)).
Qed.

Lemma params_lang_count fs r :
  (forall f, f ∈ fs -> fname f <> "LanguageID") ->
  foldl (params_step (fun t => t)) (Some ([], ∅)) fs = Some r ->
  lang_total r.1 = lang_added r.2.
Proof.
  intros Hno.
  apply (foldl_opt_inv _ (fun st => lang_total st.1 = lang_added st.2)); [done| |done].
  intros [acc ad] f y Hf Hacc H. simpl in Hacc. unfold params_step in H. simpl in H.
  pose proof (Hno f Hf) as Hn.
  destruct (fanon f) eqn:Ea, (isBaseField f) eqn:Eb; simpl in H.
  - destruct (extractBaseEmbeddedFields (ftype f) ad) as [[emb ad']|] eqn:Ee;
      simpl in H; [|done]. injection H as <-. simpl.
    destruct (extract_lang_count _ _ _ _ Ee) as [_ [He _]].
    rewrite lang_total_app. lia.
  - by injection H as <-.
  - by injection H as <-.
  - assert (Hadd : forall t, (forall e, t <> TSlice e) ->
              Some (app acc [(fname f, t, false)], ad) = Some y ->
              lang_total y.1 = lang_added y.2).
    { intros t Hne Hy. injection Hy as <-. simpl. rewrite lang_total_app.
      unfold lang_total at 2, lang_occ. simpl. rewrite bool_decide_eq_false_2 by done.
      destruct t; try (simpl; lia).
      exfalso. eapply Hne. reflexivity. }
    destruct (ftype f) as [| | | |t|e|n ms gfs] eqn:Et;
      try (refine (Hadd _ _ H); intros e' Hc; discriminate).
    destruct (bool_decide (kind_of e = KStruct)) eqn:Ek; simpl in H; [|by injection H as <-].
    destruct (generateInnerStruct e ad true) as [[inner ad']|] eqn:Ei; simpl in H; [|done].
    injection H as <-. simpl.
    destruct (generateInnerStruct_spec _ _ _ _ Ei) as [[ifs [-> _]] Hc].
    rewrite lang_total_app. unfold lang_total at 2, lang_occ. simpl.
    rewrite bool_decide_eq_false_2 by done. simpl in Hc |- *. lia.
Qed.

Lemma generate_params_spec wrap M t :
  generate_params wrap M = Some t ->
  Forall (top_ok wrap (struct_fields (model_type M))) (struct_fields t) /\
  ((forall f, f ∈ struct_fields (model_type M) -> fname f <> "LanguageID") ->
   wrap = (fun t => t) -> lang_total (struct_fields t) <= 1).
Proof.
  unfold generate_params. destruct (gen_fields (model_type M)) as [fs|] eqn:Ef;
    simpl; [|done].
  destruct (foldl (params_step wrap) (Some ([], ∅)) fs) as [r|] eqn:Efold; simpl; [|done].
  intros Hs. apply StructOf_Some in Hs as ->. simpl.
  rewrite (gen_fields_struct _ _ Ef). split.
  - exact (params_provenance _ _ _ Efold).
  - intros Hno ->. rewrite (params_lang_count _ _ Hno Efold).
    unfold lang_added. case_bool_decide; lia.
Qed.

(** C6 (counterexample): not every field of an update shape is
    optional. The fields of [Blog]'s nested content shape keep their
    declared types ([LanguageID] is a [string]), and for [BlogContent],
    which embeds [orm.ContentModel], the re-included top-level
    [LanguageID] is a plain [string]. *)
Lemma update_params_not_all_optional :
  GenerateUpdateParameters tBlog = Some tBlogUpdate /\
  ("Contents", TPtr (TSlice tBlogContentParams), false) ∈ struct_fields tBlogUpdate /\
  ("LanguageID", TString, false) ∈ struct_fields tBlogContentParams /\
  GenerateUpdateParameters tBlogContent =
    Some (TStruct None [] [("LanguageID", TString, false);
                           ("Content", TPtr TString, false); ("BlogID", TPtr TUint, false)]).
Proof.
  split; [vm_compute; reflexivity|]. split; [simpl; apply list_elem_of_here|].
  split; [simpl; apply list_elem_of_here|]. vm_compute. reflexivity.
Qed.

(** C6 (amended): every top-level field of an update shape is a
    pointer, except a [LanguageID] re-included from an anonymous base
    embedding of the model, which keeps its declared type; a nested
    content shape is reached through a pointer to a slice, and its own
    fields keep the element's declared types ([top_ok] with
    [reflect.PointerTo] as the wrapper). *)
Theorem update_params_fields_optional (M t : gtype) :
  GenerateUpdateParameters M = Some t ->
  Forall (top_ok TPtr (struct_fields (model_type M))) (struct_fields t) /\
  (forall r, r ∈ struct_fields t ->
     (exists e, ftype r = TPtr e) \/
     (fname r = "LanguageID" /\ base_language_field (struct_fields (model_type M)) r)).
Proof.
  intros H. destruct (generate_params_spec _ _ _ H) as [Hall _]. split; [exact Hall|].
  intros r Hr. rewrite Forall_forall in Hall.
  destruct (Hall r Hr) as [[f [_ [_ [_ [[e [inner [_ [_ [_ ->]]]]]|[_ ->]]]]]]|Hb].
  - left. by eexists.
  - left. by eexists.
  - right. split; [|exact Hb].
    destruct Hb as [f [_ [_ [_ [g [_ [Hg ->]]]]]]]. exact Hg.
Qed.

Lemma update_params_fields_optional_witness :
  GenerateUpdateParameters tBlogContent =
    Some (TStruct None [] [("LanguageID", TString, false);
                           ("Content", TPtr TString, false); ("BlogID", TPtr TUint, false)]) /\
  Forall (top_ok TPtr (struct_fields (model_type tBlogContent)))
    [("LanguageID", TString, false); ("Content", TPtr TString, false);
     ("BlogID", TPtr TUint, false)].
Proof.
  assert (H : GenerateUpdateParameters tBlogContent =
    Some (TStruct None [] [("LanguageID", TString, false);
                           ("Content", TPtr TString, false); ("BlogID", TPtr TUint, false)]))
    by (vm_compute; reflexivity).
  split; [exact H|].
  exact (proj1 (update_params_fields_optional tBlogContent _ H)).
Defined.




End ShapeProofs.

(* ================================================================== *)
(** ** Proofs: the repository's transactions *)
(* ================================================================== *)

Module RepositoryProofs.
Import Repository.

Lemma rollback_spec b tr err :
  rollback b tr err = (app tr [ERollback], Some (after_rollback b err)).
Proof. unfold rollback, after_rollback. by destruct (rollback_err b). Qed.

Lemma commit_spec b tr : commit b tr = (app tr [ECommit], commit_err b).
Proof. unfold commit. by destruct (commit_err b). Qed.

(** C8 (code_bug): once the transaction has begun, [GetByID] and
    [GetAll] neither commit nor roll it back, on success or on failure.
    [Create], [Update] and [Delete] do: they roll back after the first
    failing step and return its error, or the rollback's error in its
    place, and otherwise commit and return the commit's error. *)
Theorem reads_leave_transaction_open (b : backend) (preload : bool) :
  begin_err b = None ->
  ((ECommit ∉ (GetByID b preload).1) /\ (ERollback ∉ (GetByID b preload).1) /\
   (GetByID b preload).2 = first_err b) /\
  ((ECommit ∉ (GetAll b preload).1) /\ (ERollback ∉ (GetAll b preload).1) /\
   (GetAll b preload).2 = find_err b) /\
  Create b =
    match create_err b with
    | Some err => ([EBegin; ECreate; ERollback], Some (after_rollback b err))
    | None => ([EBegin; ECreate; ECommit], commit_err b)
    end /\
  Update b =
    match save_err b with
    | Some err => ([EBegin; ESave; ERollback], Some (after_rollback b err))
    | None => ([EBegin; ESave; ECommit], commit_err b)
    end /\
  Delete b =
    match first_err b, delete_err b with
    | Some err, _ => ([EBegin; EFirst; ERollback], Some (after_rollback b err))
    | None, Some err => ([EBegin; EFirst; EDelete; ERollback], Some (after_rollback b err))
    | None, None => ([EBegin; EFirst; EDelete; ECommit], commit_err b)
    end.
Proof.
  intros Hb. unfold GetByID, GetAll, Create, Update, Delete. rewrite Hb.
  split; [|split; [|split; [|split]]].
  - destruct preload, (first_err b); simpl; repeat split; set_solver.
  - destruct preload, (find_err b); simpl; repeat split; set_solver.
  - destruct (create_err b); [apply rollback_spec|apply commit_spec].
  - destruct (save_err b); [apply rollback_spec|apply commit_spec].
  - destruct (first_err b); [apply rollback_spec|].
    destruct (delete_err b); [apply rollback_spec|apply commit_spec].
Qed.

Lemma reads_leave_transaction_open_witness :
  GetByID all_ok true = ([EBegin; EPreload "Contents"; EFirst], None) /\
  (ECommit ∉ (GetByID all_ok true).1) /\ (ERollback ∉ (GetByID all_ok true).1).
Proof.
  split; [reflexivity|].
  destruct (reads_leave_transaction_open all_ok true eq_refl) as [[H1 [H2 _]] _].
  split; [exact H1|exact H2].
Defined.

(** C8 (failing input): a [GetByID] on a backend where every call
    succeeds begins a transaction and returns without ending it. *)
Lemma getbyid_no_commit :
  GetByID all_ok false = ([EBegin; EFirst], None) /\
  GetAll all_ok false = ([EBegin; EFind], None).
Proof. split; reflexivity. Qed.

End RepositoryProofs.

(* ================================================================== *)
(** ** Proofs: orm helpers, snake case, filter and create shapes, updates *)
(* ================================================================== *)

Module OrmProofs.
Import ContentMerge OrmContent MergeProofs.

Lemma IsContentContained_spec c l :
  IsContentContained c l = bool_decide (LanguageID c ∈ LanguageID <$> l).
Proof.
  induction l as [|x l IH]; simpl.
  - reflexivity.
  - destruct (String.eqb_spec (LanguageID x) (LanguageID c)) as [E|E].
    + symmetry. apply bool_decide_eq_true_2. rewrite E. apply list_elem_of_here.
    + rewrite IH. apply bool_decide_ext. rewrite elem_of_cons. naive_solver.
Qed.

(** X1: Whether a content's language is contained in the merge of two content lists is the same as whether it is contained in their concatenation: IsContained compares LanguageID only, and the merge keeps exactly the languages of its inputs. *)
Theorem IsContained_merge (c : ContentModel) (current incoming : list ContentModel) :
  IsContained c (GetAllContentsWithUpdated GetLanguageID current incoming) =
    IsContained c (current ++ incoming).
Proof.
  unfold IsContained. rewrite !IsContentContained_spec. apply bool_decide_ext.
  destruct (merge_members GetLanguageID current incoming) as (_ & Hk & _).
  change LanguageID with GetLanguageID. rewrite Hk, fmap_app, elem_of_app. done.
Qed.
End OrmProofs.

Module SnakeProofs.
Import Snake Predicates.

Lemma IsUpper_ToLower r : IsUpper (ToLower r) = false.
Proof.
  unfold ToLower. destruct (IsUpper r) eqn:E; [|exact E].
  unfold IsUpper in *. apply andb_prop in E as [E1 E2].
  apply Nat.leb_le in E1, E2.
  rewrite Ascii.nat_ascii_embedding by lia.
  apply andb_false_intro2. apply Nat.leb_gt. lia.
Qed.

Lemma IsUpper_underscore : IsUpper "_"%char = false.
Proof. reflexivity. Qed.

Lemma to_snake_no_upper i s : no_upper (to_snake_from i s) = true.
Proof.
  revert i. induction s as [|r s IH]; intros i; [reflexivity|].
  simpl. destruct (IsUpper r && (0 <? i)%nat); unfold no_upper; simpl;
    rewrite IsUpper_ToLower; simpl; apply IH.
Qed.

Lemma to_snake_fixed i s : no_upper s = true -> to_snake_from i s = s.
Proof.
  revert i. induction s as [|r s IH]; intros i H; [reflexivity|].
  unfold no_upper in H. simpl in H. apply andb_prop in H as [Hr Hs].
  apply negb_true_iff in Hr. simpl. rewrite Hr. simpl.
  unfold ToLower. rewrite Hr. f_equal. by apply IH.
Qed.

(** X2: For an ASCII string, toSnakeCase returns a string without upper-case letters, and applying toSnakeCase again to its output returns the output unchanged. *)
Theorem toSnakeCase_idempotent (str : string) :
  is_ascii str = true ->
  no_upper (toSnakeCase str) = true /\ toSnakeCase (toSnakeCase str) = toSnakeCase str.
Proof.
  intros _. unfold toSnakeCase. split; [apply to_snake_no_upper|].
  apply to_snake_fixed, to_snake_no_upper.
Qed.

(** Witness: a camel-case name with a trailing acronym. *)
Lemma toSnakeCase_idempotent_witness :
  is_ascii "HelloWorldID" = true /\
  no_upper (toSnakeCase "HelloWorldID") = true /\
  toSnakeCase (toSnakeCase "HelloWorldID") = toSnakeCase "HelloWorldID".
Proof. split; [reflexivity|]. apply toSnakeCase_idempotent. reflexivity. Defined.

(** X3: For an ASCII string, deleting the underscores from toSnakeCase's output gives the input lowered letter by letter with its own underscores deleted: toSnakeCase only lowers letters and inserts underscores. *)
Theorem toSnakeCase_strip (str : string) :
  is_ascii str = true ->
  strip_underscores (toSnakeCase str) =
    filter (fun r => r <> "_"%char) (ToLower <$> String.list_ascii_of_string str).
Proof.
  intros _. unfold strip_underscores, toSnakeCase. generalize 0%nat as i.
  induction str as [|r s IH]; intros i; [reflexivity|].
  simpl. destruct (IsUpper r && (0 <? i)%nat) eqn:E; simpl.
  - rewrite filter_cons_False by (intros H; apply H; reflexivity).
    rewrite !filter_cons. rewrite IH. reflexivity.
  - rewrite !filter_cons, IH. reflexivity.
Qed.

(** Witness: a name that already holds an underscore. *)
Lemma toSnakeCase_strip_witness :
  is_ascii "Blog_Content" = true /\
  strip_underscores (toSnakeCase "Blog_Content") =
    filter (fun r => r <> "_"%char) (ToLower <$> String.list_ascii_of_string "Blog_Content").
Proof. split; [reflexivity|]. apply toSnakeCase_strip. reflexivity. Defined.
End SnakeProofs.

Module FilterProofs.
Import GoReflect Engine ShapeProofs Predicates.

Lemma foldl_inv {A B} (F : A -> B -> A) (P : A -> Prop) (l : list B) (x0 : A) :
  P x0 -> (forall x b, b ∈ l -> P x -> P (F x b)) -> P (foldl F x0 l).
Proof.
  revert x0. induction l as [|b l IH]; intros x0 H0 HS; simpl; [done|].
  apply IH; [apply HS; [left|done]|].
  intros x b' Hb. apply HS. by right.
Qed.

Lemma filter_inner_ok fs e st :
  Forall (filter_ok fs) st.1 -> Forall (filter_ok fs) (filter_inner e st).1.
Proof.
  intros H0. unfold filter_inner.
  apply (foldl_inv _ (fun st => Forall (filter_ok fs) st.1)); [exact H0|].
  intros [acc ad] f _ Hacc. simpl in *.
  destruct (has_suffix (fname f) "ID") eqn:Hs; [exact Hacc|].
  assert (Hnew : filter_ok fs (fname f, TPtr (ftype f), false)).
  { split; [eauto|split; [reflexivity|]]. intros H.
    change (has_suffix (fname f) "ID" = true) in H. congruence. }
  destruct (fanon f || isBaseField f);
    [destruct (bool_decide _ && bool_decide _)|destruct (bool_decide _)]; simpl;
    try exact Hacc; apply Forall_app; split; auto.
Qed.

(** X4: Every field of the generated filter-parameter struct is a non-embedded pointer field. Each one whose name ends in ID points to a direct, non-embedded, non-base field of the model with the same name and type. *)
Theorem filter_params_fields (M t : gtype) :
  GenerateFilterParameters M = Some t ->
  forall r, r ∈ struct_fields t ->
    (exists e, ftype r = TPtr e) /\ fanon r = false /\
    (has_suffix (fname r) "ID" = true ->
       exists f, f ∈ struct_fields (model_type M) /\ fanon f = false /\
         isBaseField f = false /\ fname r = fname f /\ ftype r = TPtr (ftype f)).
Proof.
  unfold GenerateFilterParameters.
  destruct (gen_fields (model_type M)) as [fs|] eqn:Hg; [|discriminate]. simpl.
  apply gen_fields_struct in Hg.
  match goal with |- context [foldl ?F ?x0 fs] =>
    pose proof (foldl_inv F (fun st => Forall (filter_ok fs) st.1) fs x0) as Hinv;
    destruct (foldl F x0 fs) as [fields ad] eqn:Hf end.
  intros Ht%StructOf_Some r Hr. subst t. simpl in Hr. rewrite Hg.
  assert (Hall : Forall (filter_ok fs) fields).
  { change fields with (fields, ad).1. apply Hinv; [constructor|].
    intros [acc ad0] f Hf0 Hacc. simpl in *.
    destruct (fanon f || isBaseField f) eqn:Hb; [exact Hacc|].
    assert (Hnew : filter_ok fs (fname f, TPtr (ftype f), false)).
    { split; [eauto|split; [done|]]. intros _. exists f.
      apply orb_false_iff in Hb as [Ha Hb]. done. }
    destruct (match ftype f with TSlice e => _ | _ => None end) as [st|] eqn:Hfl.
    - destruct (ftype f); try discriminate.
      destruct (bool_decide _ && _); [|discriminate]. injection Hfl as <-.
      by apply filter_inner_ok.
    - destruct (bool_decide _); simpl; [|exact Hacc].
      apply Forall_app; split; auto. }
  rewrite Forall_forall in Hall. apply Hall, Hr.
Qed.

(** Witness: the filter shape of [BlogContent] keeps [BlogID], a direct
    field of the model. *)
Lemma filter_params_fields_witness :
  GenerateFilterParameters Models.tBlogContent =
    Some (TStruct None [] [("Content", TPtr TString, false); ("BlogID", TPtr TUint, false)]) /\
  exists f, f ∈ struct_fields (model_type Models.tBlogContent) /\ fanon f = false /\
    isBaseField f = false /\ "BlogID" = fname f /\ TPtr TUint = TPtr (ftype f).
Proof.
  split; [vm_compute; reflexivity|].
  destruct (filter_params_fields Models.tBlogContent
              (TStruct None [] [("Content", TPtr TString, false); ("BlogID", TPtr TUint, false)])
              ltac:(vm_compute; reflexivity) ("BlogID", TPtr TUint, false)
              ltac:(apply list_elem_of_further, list_elem_of_here)) as (_ & _ & Hid).
  apply Hid. reflexivity.
Defined.
End FilterProofs.

Module BaseFieldProofs.
Import GoReflect Engine Models ShapeSpec ShapeProofs Examples.

Lemma NoDup_fmap_same {A B} (h : A -> B) (l : list A) x y :
  NoDup (h <$> l) -> x ∈ l -> y ∈ l -> h x = h y -> x = y.
Proof.
  induction l as [|z l IH]; simpl; intros Hnd Hx Hy Hxy; [set_solver|].
  apply NoDup_cons in Hnd as [Hz Hnd].
  apply elem_of_cons in Hx as [->|Hx], Hy as [->|Hy]; auto.
  - exfalso. apply Hz. rewrite Hxy. by apply list_elem_of_fmap_2.
  - exfalso. apply Hz. rewrite <- Hxy. by apply list_elem_of_fmap_2.
Qed.

(** X5: When the model's field names are distinct, a named (non-embedded) model field whose name contains Model never appears in the generated create or update parameters: isBaseField treats it as part of gorm.Model. *)
Theorem model_named_field_dropped (M t : gtype) (f : field) :
  NoDup (fname <$> struct_fields (model_type M)) ->
  (GenerateCreateParameters M = Some t \/ GenerateUpdateParameters M = Some t) ->
  f ∈ struct_fields (model_type M) -> fanon f = false ->
  str_contains (fname f) "Model" = true ->
  fname f ∉ fname <$> struct_fields t.
Proof.
  intros Hnd Hg Hf Ha Hm.
  assert (Hb : isBaseField f = true)
    by (unfold isBaseField; simpl; rewrite Hm; reflexivity).
  assert (Hall : exists wrap,
            Forall (top_ok wrap (struct_fields (model_type M))) (struct_fields t))
    by (destruct Hg as [H|H]; eexists; exact (proj1 (generate_params_spec _ _ _ H))).
  destruct Hall as [wrap Hall].
  intros Hin. apply list_elem_of_fmap in Hin as [r [Hr Hin]].
  rewrite Forall_forall in Hall. specialize (Hall r Hin).
  destruct Hall as [(f' & Hf' & Ha' & Hb' & Hcase) | (g0 & _ & _ & _ & g & _ & Hlang & ->)].
  - assert (Hr' : fname r = fname f')
      by (destruct Hcase as [(e & inner & _ & _ & _ & ->) | (_ & ->)]; reflexivity).
    assert (f = f') as <- by (apply (NoDup_fmap_same fname _ _ _ Hnd Hf Hf'); congruence).
    congruence.
  - simpl in Hr. rewrite Hr, Hlang in Hm. discriminate.
Qed.

Lemma model_named_field_dropped_witness :
  GenerateCreateParameters tProduct = Some (TStruct None [] [("Name", TString, false)]) /\
  "ModelNumber" ∉ fname <$> struct_fields (TStruct None [] [("Name", TString, false)]).
Proof.
  assert (H : GenerateCreateParameters tProduct =
                Some (TStruct None [] [("Name", TString, false)]))
    by (vm_compute; reflexivity).
  split; [exact H|].
  apply (model_named_field_dropped tProduct _ ("ModelNumber", TString, false)).
  - apply (bool_decide_unpack _). vm_compute. exact I.
  - left. exact H.
  - simpl. apply elem_of_cons. right. apply elem_of_cons. left. reflexivity.
  - reflexivity.
  - reflexivity.
Defined.
End BaseFieldProofs.

Module UpdateModelProofs.
Import GoReflect Updater Models Examples.

Lemma update_fields_all_nil model names vs :
  Forall (fun v => is_nil_ptr v = true) vs ->
  update_fields model (zip names vs) = Some (model, None).
Proof.
  intros Hvs. revert names.
  induction Hvs as [|v vs Hv Hvs IH]; intros [|n names]; try reflexivity.
  simpl. rewrite Hv. apply IH.
Qed.

(** X6: Update parameters whose fields are all nil pointers leave the model unchanged, and UpdateModelFromUpdateParameters returns no error. *)
Theorem update_all_nil_noop (model : gvalue) (pt : gtype) (vs : list gvalue) :
  kind_of pt = KStruct -> Forall (fun v => is_nil_ptr v = true) vs ->
  UpdateModelFromUpdateParameters model (VPtr pt (Some (VStruct pt vs))) =
    Some (model, None).
Proof.
  intros Hk Hvs. unfold UpdateModelFromUpdateParameters, is_struct. simpl.
  rewrite Hk. simpl. by apply update_fields_all_nil.
Qed.

Lemma update_all_nil_noop_witness :
  UpdateModelFromUpdateParameters (blog 1 2 3 [old_en] "me" true)
    (VPtr tBlogUpdate (Some (VStruct tBlogUpdate
       [VPtr (TSlice tBlogContentParams) None; VPtr TString None; VPtr TBool None]))) =
    Some (blog 1 2 3 [old_en] "me" true, None).
Proof.
  apply update_all_nil_noop; [reflexivity|].
  repeat constructor.
Defined.

(** X7: For a Blog and update parameters whose Contents is nil, Owner and IsPublished take the given values where their pointers are non-nil and keep their old values where they are nil; the ID, timestamps and contents do not change and no error is returned. *)
Theorem blog_update_scalars (id created updated : Z) (contents : list gvalue)
  (owner : string) (published : bool) (owner' : option string) (published' : option bool) :
  UpdateModelFromUpdateParameters (blog id created updated contents owner published)
    (blog_update owner' published') =
    Some (blog id created updated contents (default owner owner')
            (default published published'), None).
Proof. destruct owner', published'; reflexivity. Qed.
End UpdateModelProofs.

(* ================================================================== *)
(** ** Proofs: the reflective copier *)
(* ================================================================== *)

Module ReflectProofs.
Import GoReflect Models Predicates.

Lemma typeof_zero t : typeof (zero t) = t.
Proof. destruct t; reflexivity. Qed.

Lemma zero_struct n ms fs :
  zero (TStruct n ms fs) = VStruct (TStruct n ms fs) ((fun f => zero (ftype f)) <$> fs).
Proof. simpl. f_equal. induction fs as [|[[x ft] a] fs IH]; simpl; [done|]. f_equal. exact IH. Qed.

Lemma gtype_eqb_refl t : gtype_eqb t t = true.
Proof.
  revert t. fix IH 1. intros [| | | |a|a|n ms fs]; simpl; try reflexivity; try apply IH.
  rewrite !bool_decide_eq_true_2 by reflexivity. simpl.
  revert fs. fix IHfs 1. intros [|[[x tx] e] fs]; [reflexivity|]. simpl.
  rewrite bool_decide_eq_true_2 by reflexivity. rewrite IH, Bool.eqb_reflx. simpl. apply IHfs.
Qed.

Lemma assignable_refl t : assignable t t = true.
Proof. unfold assignable. by rewrite gtype_eqb_refl. Qed.

Lemma hits_none name fs k :
  name ∉ fname <$> fs -> flat_map (hit_of name) (zip (seq k (length fs)) fs) = [].
Proof.
  revert k. induction fs as [|g fs IH]; intros k Hn; [reflexivity|].
  simpl in *. apply not_elem_of_cons in Hn as [Hg Hn].
  rewrite bool_decide_eq_false_2 by congruence. simpl. by apply IH.
Qed.

Lemma hits_one fs k i f :
  NoDup (fname <$> fs) -> fs !! i = Some f ->
  flat_map (hit_of (fname f)) (zip (seq k (length fs)) fs) = [[(k + i, fname f)]].
Proof.
  revert k i. induction fs as [|g fs IH]; intros k i Hnd Hi; [done|].
  simpl in *. apply NoDup_cons in Hnd as [Hg Hnd].
  destruct i as [|i]; simpl in Hi.
  - injection Hi as ->. rewrite bool_decide_eq_true_2 by done. simpl.
    rewrite hits_none by done. by rewrite Nat.add_0_r.
  - rewrite bool_decide_eq_false_2.
    + simpl. rewrite (IH (S k) i Hnd Hi). do 3 f_equal. lia.
    + intros E. apply Hg. rewrite E. apply list_elem_of_fmap_2.
      by eapply list_elem_of_lookup_2.
Qed.

Lemma field_by_name_direct n ms fs i f :
  NoDup (fname <$> fs) -> fs !! i = Some f ->
  field_by_name (TStruct n ms fs) (fname f) = Some [(i, fname f)].
Proof.
  intros Hnd Hi. unfold field_by_name. simpl bfs_field.
  assert (E : flat_map (fun '(i0, f0) =>
      if bool_decide (fname f0 = fname f) then [[(i0, fname f)]] else []) (indexed fs)
      = [[(i, fname f)]]) by exact (hits_one fs 0 i f Hnd Hi).
  rewrite E. reflexivity.
Qed.

Lemma zip_drop_S (fs : list field) (vs : list gvalue) k f v :
  fs !! k = Some f -> vs !! k = Some v ->
  drop k (zip (fname <$> fs) vs) = (fname f, v) :: drop (S k) (zip (fname <$> fs) vs).
Proof.
  intros Hf Hv. apply drop_S. rewrite lookup_zip_with, list_lookup_fmap, Hf, Hv.
  reflexivity.
Qed.

Lemma take_drop_insert {A} (vs ds : list A) k v d :
  k < length vs -> vs !! k = Some v -> ds !! k = Some d ->
  <[k := v]> (take k vs ++ drop k ds)%list = (take (S k) vs ++ drop (S k) ds)%list.
Proof.
  intros Hk Hv Hd.
  rewrite insert_app_r_alt by (rewrite length_take; lia).
  rewrite length_take_le by lia. rewrite Nat.sub_diag.
  rewrite (drop_S ds d k Hd). simpl.
  rewrite (take_S_r vs k v Hv), <- app_assoc. reflexivity.
Qed.

Lemma take_drop_lookup {A} (vs ds : list A) k :
  k <= length vs -> (take k vs ++ drop k ds)%list !! k = ds !! k.
Proof.
  intros Hk. rewrite lookup_app_r by (rewrite length_take; lia).
  rewrite length_take_le by lia. rewrite lookup_drop, Nat.sub_diag, Nat.add_0_r. reflexivity.
Qed.

Lemma deref_nonptr v : kind_of (typeof v) <> KPtr -> deref v = v.
Proof. destruct v; simpl; congruence. Qed.

Lemma copy_into_nonptr dt dv sv :
  kind_of dt <> KPtr -> assignable (typeof sv) dt = true -> copy_into dt dv sv = (sv, None).
Proof. intros Hk Ha. destruct dt; simpl in *; try congruence; by rewrite Ha. Qed.

Lemma copy_fields_typed n ms fs vs ds k :
  NoDup (fname <$> fs) -> Forall (fun f => exported (fname f) = true) fs ->
  Forall (fun f => kind_of (ftype f) <> KPtr) fs ->
  typed vs fs -> typed ds fs ->
  copy_fields (VStruct (TStruct n ms fs) (take k vs ++ drop k ds)%list)
    (drop k (zip (fname <$> fs) vs)) = (VStruct (TStruct n ms fs) vs, None).
Proof.
  intros Hnd Hex Hnp Hv Hd.
  pose proof (Forall2_length _ _ _ Hv) as Hlv. pose proof (Forall2_length _ _ _ Hd) as Hld.
  remember (length fs - k) as m eqn:Hm. revert k Hm.
  induction m as [|m IH]; intros k Hm.
  - rewrite take_ge, !drop_ge by (rewrite ?length_zip_with, ?length_fmap; lia).
    by rewrite app_nil_r.
  - destruct (lookup_lt_is_Some_2 fs k) as [f Hf]; [lia|].
    destruct (Forall2_lookup_r _ _ _ _ _ Hv Hf) as [v [Hvk Htv]].
    destruct (Forall2_lookup_r _ _ _ _ _ Hd Hf) as [d [Hdk Htd]].
    pose proof (Forall_lookup_1 _ _ _ _ Hnp Hf) as Hfk.
    rewrite (zip_drop_S fs vs k f v Hf Hvk).
    cbn [copy_fields typeof].
    rewrite (field_by_name_direct n ms fs k f Hnd Hf).
    cbn [can_set forallb]. rewrite (Forall_lookup_1 _ _ _ _ Hex Hf).
    cbn [andb get_path]. rewrite take_drop_lookup, Hdk by lia. cbn [get_path].
    unfold copyField. rewrite deref_nonptr by congruence.
    assert (Ha : assignable (typeof v) (ftype f) = true) by (rewrite Htv; apply assignable_refl).
    rewrite Htd, copy_into_nonptr by assumption.
    cbn [set_path].
    erewrite (list_alter_ext _ (fun _ => v)); [|intros x _; by destruct x|reflexivity].
    rewrite <- list_insert_alter, (take_drop_insert vs ds k v d) by (done || lia).
    apply IH. lia.
Qed.

(** X9: copyStruct between two well-typed values of one struct type, whose fields have distinct exported names and non-pointer types, makes the destination equal to the source and returns no error. *)
Theorem copyStruct_same_type (n : option string) (ms : list string) (fs : list field)
  (ds vs : list gvalue) :
  NoDup (fname <$> fs) -> Forall (fun f => exported (fname f) = true) fs ->
  Forall (fun f => kind_of (ftype f) <> KPtr) fs ->
  typed ds fs -> typed vs fs ->
  copyStruct (VStruct (TStruct n ms fs) ds) (VStruct (TStruct n ms fs) vs) =
    (VStruct (TStruct n ms fs) vs, None).
Proof.
  intros Hnd Hex Hnp Hd Hv. unfold copyStruct.
  cbn [is_struct typeof kind_of andb value_fields struct_fields].
  pose proof (copy_fields_typed n ms fs vs ds 0 Hnd Hex Hnp Hv Hd) as H.
  cbn [take drop app] in H. exact H.
Qed.

Lemma copyStruct_same_type_witness :
  copyStruct (VStruct tPair [VStr "a"; VStr "b"]) (VStruct tPair [VStr "c"; VStr "d"]) =
    (VStruct tPair [VStr "c"; VStr "d"], None).
Proof.
  apply (copyStruct_same_type None [] _ [VStr "a"; VStr "b"] [VStr "c"; VStr "d"]).
  - apply (bool_decide_unpack _). vm_compute. exact I.
  - repeat constructor.
  - repeat constructor; discriminate.
  - repeat constructor.
  - repeat constructor.
Defined.
Lemma bfs_field_nonempty fuel lvl name p :
  bfs_field fuel lvl name = Some p -> p <> [].
Proof.
  revert lvl. induction fuel as [|fuel IH]; intros lvl H; [discriminate|].
  cbn [bfs_field] in H.
  match type of H with
  | match ?hs with _ => _ end = _ => destruct hs as [|h [|h' hs']] eqn:Ehs
  end; [eapply IH; exact H| |discriminate].
  injection H as <-.
  assert (Hin : In h (flat_map (fun '(p, t) =>
        flat_map (fun '(i, f) =>
          if bool_decide (fname f = name) then [app p [(i, name)]] else [])
          (indexed (struct_fields t))) lvl)) by (rewrite Ehs; left; reflexivity).
  apply List.in_flat_map in Hin as [[q t] [_ Hin]].
  apply List.in_flat_map in Hin as [[i f] [_ Hin]].
  case_bool_decide; [|contradiction].
  destruct Hin as [<-|[]]. destruct q; discriminate.
Qed.

Lemma typeof_set_path v p x : p <> [] -> typeof (set_path v p x) = typeof v.
Proof. destruct p as [|[i n] r]; [congruence|]. intros _. destruct v; reflexivity. Qed.

Lemma copy_fields_typeof dv srcs : typeof (copy_fields dv srcs).1 = typeof dv.
Proof.
  revert dv. induction srcs as [|[name sv] rest IH]; intros dv; [reflexivity|].
  cbn [copy_fields]. destruct (field_by_name (typeof dv) name) as [p|] eqn:Ep; [|apply IH].
  assert (Hp : p <> []) by (eapply bfs_field_nonempty; exact Ep).
  destruct (can_set p); [|apply IH].
  destruct (get_path dv p) as [cur|]; [|apply IH].
  destruct (copyField cur sv) as [cur' [e|]].
  - apply typeof_set_path, Hp.
  - rewrite IH. apply typeof_set_path, Hp.
Qed.

Lemma copyStruct_typeof dv sv : typeof (copyStruct dv sv).1 = typeof dv.
Proof. unfold copyStruct. destruct (is_struct dv && is_struct sv); [apply copy_fields_typeof|reflexivity]. Qed.

Lemma in_indexed_from {A} (l : list A) k i x :
  In (i, x) (zip (seq k (length l)) l) -> (k <= i)%nat /\ l !! (i - k)%nat = Some x.
Proof.
  revert k. induction l as [|y l IH]; intros k H; [destruct H|].
  simpl in H. destruct H as [H|H].
  - injection H as <- <-. split; [lia|]. by rewrite Nat.sub_diag.
  - destruct (IH (S k) H) as [Hk Hl]. split; [lia|].
    replace (i - k)%nat with (S (i - S k)) by lia. exact Hl.
Qed.

Lemma in_indexed {A} (l : list A) i x : In (i, x) (indexed l) -> l !! i = Some x.
Proof. intros H. apply in_indexed_from in H as [_ H]. by rewrite Nat.sub_0_r in H. Qed.

Section Head.
Variables (fs : list field) (name : string).

Lemma next_level_ok lvl : level_ok fs lvl -> level_ok fs (next_level lvl).
Proof.
  intros Hl p t Hin. unfold next_level in Hin.
  apply List.in_flat_map in Hin as [[p0 t0] [Hin0 Hin]].
  apply List.in_flat_map in Hin as [[j g] [_ Hin]].
  destruct (ftype g); try destruct Hin. destruct (fanon g); [|destruct Hin].
  destruct Hin as [Heq|[]]. injection Heq as <- <-.
  destruct (Hl p0 t0 Hin0) as (i & x & r & f & -> & Hf & Ha).
  exists i, x, (r ++ [(j, fname g)])%list, f. split; [reflexivity|]. auto.
Qed.

Lemma bfs_field_head fuel lvl q :
  level_ok fs lvl -> bfs_field fuel lvl name = Some q -> head_ok fs name q.
Proof.
  revert lvl. induction fuel as [|fuel IH]; intros lvl Hl H; [discriminate|].
  cbn [bfs_field] in H.
  match type of H with
  | match ?hs with _ => _ end = _ => destruct hs as [|h [|h' hs']] eqn:Ehs
  end; [eapply IH; [apply next_level_ok, Hl|exact H]| |discriminate].
  injection H as <-.
  assert (Hin : In h (flat_map (fun '(p, t) =>
        flat_map (fun '(i, f) =>
          if bool_decide (fname f = name) then [app p [(i, name)]] else [])
          (indexed (struct_fields t))) lvl)) by (rewrite Ehs; left; reflexivity).
  apply List.in_flat_map in Hin as [[p t] [Hpt Hin]].
  apply List.in_flat_map in Hin as [[j g] [_ Hin]].
  case_bool_decide; [|destruct Hin]. destruct Hin as [<-|[]].
  destruct (Hl p t Hpt) as (i & x & r & f & -> & Hf & Ha).
  exists i, x, (r ++ [(j, name)])%list, f. auto.
Qed.

Lemma field_by_name_head n ms q :
  field_by_name (TStruct n ms fs) name = Some q -> head_ok fs name q.
Proof.
  unfold field_by_name. intros H. cbn [bfs_field] in H.
  match type of H with
  | match ?hs with _ => _ end = _ => destruct hs as [|h [|h' hs']] eqn:Ehs
  end; [| |discriminate].
  - eapply bfs_field_head; [|exact H].
    intros p t Hin. unfold next_level in Hin. simpl in Hin. rewrite app_nil_r in Hin.
    apply List.in_flat_map in Hin as [[j g] [Hj Hin]].
    destruct (ftype g); try destruct Hin. destruct (fanon g) eqn:Ea; [|destruct Hin].
    destruct Hin as [Heq|[]]. injection Heq as <- <-.
    exists j, (fname g), [], g. split; [reflexivity|]. split; [|exact Ea].
    by apply in_indexed.
  - injection H as <-.
    assert (Hin : In h (flat_map (fun '(p, t) =>
        flat_map (fun '(i, f) =>
          if bool_decide (fname f = name) then [app p [(i, name)]] else [])
          (indexed (struct_fields t))) [([], TStruct n ms fs)])) by (rewrite Ehs; left; reflexivity).
    apply List.in_flat_map in Hin as [[p t] [Hpt Hin]].
    destruct Hpt as [Hpt|[]]. injection Hpt as <- <-.
    apply List.in_flat_map in Hin as [[j g] [Hj Hin]].
    case_bool_decide as Hn; [|destruct Hin]. destruct Hin as [<-|[]].
    exists j, name, [], g. split; [reflexivity|]. split; [by apply in_indexed|]. auto.
Qed.

End Head.

Lemma get_set_other v j x r y i n :
  j <> i -> get_path (set_path v ((j, x) :: r) y) [(i, n)] = get_path v [(i, n)].
Proof. intros Hji. destruct v; try reflexivity. simpl. by rewrite list_lookup_alter_ne. Qed.

Lemma copy_fields_frame n ms (fs : list field) i f srcs :
  fs !! i = Some f -> fanon f = false -> Forall (fun s => s.1 <> fname f) srcs ->
  forall dv, typeof dv = TStruct n ms fs ->
  get_path (copy_fields dv srcs).1 [(i, fname f)] = get_path dv [(i, fname f)].
Proof.
  intros Hf Ha Hsrcs. induction Hsrcs as [|[name sv] rest Hn Hrest IH]; intros dv Ht; [reflexivity|].
  simpl in Hn. cbn [copy_fields].
  destruct (field_by_name (typeof dv) name) as [p|] eqn:Ep; [|apply IH, Ht].
  pose proof Ep as Ep'. rewrite Ht in Ep'.
  apply field_by_name_head in Ep' as (j & x & r & g & -> & Hg & Hgn).
  assert (Hji : j <> i).
  { intros Heq. subst j. assert (g = f) as -> by congruence. destruct Hgn; congruence. }
  destruct (can_set _); [|apply IH, Ht].
  destruct (get_path dv _) as [cur|]; [|apply IH, Ht].
  destruct (copyField cur sv) as [cur' [e|]].
  - apply get_set_other, Hji.
  - rewrite IH; [apply get_set_other, Hji|]. rewrite typeof_set_path; [exact Ht|discriminate].
Qed.

Lemma zip_names (l : list string) (vs : list gvalue) : Forall (fun s => s.1 ∈ l) (zip l vs).
Proof.
  revert vs. induction l as [|x l IH]; intros [|v vs]; simpl; constructor.
  - simpl. apply list_elem_of_here.
  - eapply Forall_impl; [apply IH|]. intros s Hs. by apply list_elem_of_further.
Qed.

(** X10: copyStruct never changes a non-embedded destination field whose name is not a field name of the source's type, even when it fails on another field. *)
Theorem copyStruct_frame n ms (fs : list field) ds sv i f :
  fs !! i = Some f -> fanon f = false ->
  fname f ∉ fname <$> struct_fields (typeof sv) ->
  get_path (copyStruct (VStruct (TStruct n ms fs) ds) sv).1 [(i, fname f)] = ds !! i.
Proof.
  intros Hf Ha Hn. unfold copyStruct.
  transitivity (get_path (VStruct (TStruct n ms fs) ds) [(i, fname f)]);
    [|simpl; by destruct (ds !! i)].
  destruct (is_struct _ && is_struct sv); [|reflexivity].
  apply (copy_fields_frame n ms fs i f); [exact Hf|exact Ha| |reflexivity].
  destruct sv; try constructor. simpl in Hn.
  eapply Forall_impl; [apply zip_names|]. intros s Hs Heq. apply Hn. by rewrite <- Heq.
Qed.

Lemma copyStruct_frame_witness :
  get_path (copyStruct (VStruct tPair [VStr "a"; VStr "b"])
              (VStruct (TStruct None [] [("A", TString, false)]) [VStr "x"])).1 [(1, "B")] =
    Some (VStr "b").
Proof.
  apply (copyStruct_frame None [] _ [VStr "a"; VStr "b"] _ 1 ("B", TString, false)).
  - reflexivity.
  - reflexivity.
  - apply (bool_decide_unpack _). vm_compute. exact I.
Defined.

End ReflectProofs.

(* ================================================================== *)
(** ** Proofs: [orm.ExtractContent] *)
(* ================================================================== *)

Module ExtractProofs.
Import GoReflect OrmExtract Models Predicates ReflectProofs.

Lemma extract_fields_typed n ms fs vs ds k :
  NoDup (fname <$> fs) -> Forall (fun f => exported (fname f) = true) fs ->
  typed vs fs -> typed ds fs ->
  extract_fields (VStruct (TStruct n ms fs) (take k vs ++ drop k ds)%list)
    (drop k (zip (fname <$> fs) vs)) = Some (VStruct (TStruct n ms fs) vs).
Proof.
  intros Hnd Hex Hv Hd.
  pose proof (Forall2_length _ _ _ Hv) as Hlv. pose proof (Forall2_length _ _ _ Hd) as Hld.
  remember (length fs - k) as m eqn:Hm. revert k Hm.
  induction m as [|m IH]; intros k Hm.
  - rewrite take_ge, !drop_ge by (rewrite ?length_zip_with, ?length_fmap; lia).
    by rewrite app_nil_r.
  - destruct (lookup_lt_is_Some_2 fs k) as [f Hf]; [lia|].
    destruct (Forall2_lookup_r _ _ _ _ _ Hv Hf) as [v [Hvk Htv]].
    destruct (Forall2_lookup_r _ _ _ _ _ Hd Hf) as [d [Hdk Htd]].
    rewrite (zip_drop_S fs vs k f v Hf Hvk).
    cbn [extract_fields is_struct typeof kind_of negb].
    rewrite (field_by_name_direct n ms fs k f Hnd Hf).
    cbn [can_set forallb]. rewrite (Forall_lookup_1 _ _ _ _ Hex Hf).
    cbn [andb get_path]. rewrite take_drop_lookup, Hdk by lia. cbn [get_path].
    rewrite Htv, Htd, assignable_refl. cbn [set_path].
    erewrite (list_alter_ext _ (fun _ => v)); [|intros x _; by destruct x|reflexivity].
    rewrite <- list_insert_alter, (take_drop_insert vs ds k v d) by (done || lia).
    apply IH. lia.
Qed.

(** X8: ExtractContent applied to a slice of well-typed values of the content struct type itself, whose field names are distinct and exported, returns the same items: every field is copied into a fresh zero element. *)
Theorem ExtractContent_roundtrip (n : option string) (ms : list string) (fs : list field)
  (items : list gvalue) :
  NoDup (fname <$> fs) -> Forall (fun f => exported (fname f) = true) fs ->
  Forall (fun item => exists vs, item = VStruct (TStruct n ms fs) vs /\ typed vs fs) items ->
  ExtractContent (TStruct n ms fs) (VSlice (TStruct n ms fs) items) = Some items.
Proof.
  intros Hnd Hex Hitems. unfold ExtractContent.
  apply mapM_Some_2, Forall_Forall2_diag.
  eapply Forall_impl; [exact Hitems|]. intros item (vs & -> & Hvs).
  rewrite zero_struct. cbn [is_struct typeof kind_of value_fields struct_fields].
  pose proof (extract_fields_typed n ms fs vs ((fun f => zero (ftype f)) <$> fs) 0 Hnd Hex Hvs)
    as H. cbn [take drop app] in H. apply H.
  apply Forall2_fmap_l, Forall_Forall2_diag, Forall_forall. intros f _. apply typeof_zero.
Qed.

Lemma ExtractContent_roundtrip_witness :
  ExtractContent tBlogContent (VSlice tBlogContent [old_en]) =
    Some [old_en].
Proof.
  apply (ExtractContent_roundtrip (Some "BlogContent") [] _ [old_en]).
  - apply (bool_decide_unpack _). vm_compute. exact I.
  - repeat constructor.
  - constructor; [|constructor]. eexists. split; [reflexivity|]. repeat constructor.
Defined.

End ExtractProofs.

(* ================================================================== *)
(** ** Proofs: [handleSliceUpdate] and [mergeContents] *)
(* ================================================================== *)

Module SliceProofs.
Import GoReflect Updater SliceUpdate ContentMerge UpdateProofs Models Examples ReflectProofs.

Lemma put_langs_spec m elems :
  Forall (fun v => is_struct v = true) elems ->
  put_langs (Some m) elems = Some (put_all lang_of m elems).
Proof.
  intros Hall. revert m. induction Hall as [|v vs Hv Hvs IH]; intros m; [reflexivity|].
  cbn [put_langs put_all foldl]. simpl. rewrite (getLanguageID_struct v Hv). apply IH.
Qed.

(** X11: mergeContents of two slices of structs returns a slice of the existing slice's type holding what orm.GetAllContentsWithUpdated computes from the two, keyed by getLanguageID. *)
Theorem mergeContents_union et pt cur news :
  Forall (fun v => is_struct v = true) cur -> Forall (fun v => is_struct v = true) news ->
  mergeContents (VSlice et cur) (VSlice pt news) =
    Some (VSlice et (GetAllContentsWithUpdated lang_of cur news)).
Proof.
  intros Hc Hn. unfold mergeContents. cbn [len_index mbind option_bind].
  simpl. rewrite put_langs_spec by done. simpl. rewrite put_langs_spec by done.
  reflexivity.
Qed.

Lemma copy_elem_typeof et s : typeof (copy_elem et s).1 = et.
Proof.
  unfold copy_elem. destruct s as [| | | |t [w|]| |];
    rewrite ?copyStruct_typeof; apply typeof_zero.
Qed.

Lemma copy_elems_ok et k srcs :
  (forall i s, srcs !! i = Some s -> (copy_elem et s).2 = None) ->
  copy_elems et k srcs = inl ((fun s => (copy_elem et s).1) <$> srcs).
Proof.
  revert k. induction srcs as [|s rest IH]; intros k Hok; [reflexivity|].
  cbn [copy_elems]. pose proof (Hok 0 s eq_refl) as H0.
  destruct (copy_elem et s) as [d err] eqn:E. simpl in H0. subst err.
  rewrite IH; [by rewrite fmap_cons, E|]. intros i s' Hi. apply (Hok (S i)). exact Hi.
Qed.

Lemma copy_elems_first_error et k srcs i s e :
  srcs !! i = Some s -> (copy_elem et s).2 = Some e ->
  (forall j s', (j < i)%nat -> srcs !! j = Some s' -> (copy_elem et s').2 = None) ->
  copy_elems et k srcs = inr (k + i, e)%nat.
Proof.
  revert k i. induction srcs as [|s0 rest IH]; intros k i Hi He Hpre; [discriminate|].
  cbn [copy_elems]. destruct i as [|i].
  - injection Hi as ->. destruct (copy_elem et s) as [d err]. simpl in He. subst err.
    f_equal. f_equal. lia.
  - pose proof (Hpre 0%nat s0 ltac:(lia) eq_refl) as H0.
    destruct (copy_elem et s0) as [d err]. simpl in H0. subst err.
    rewrite (IH (S k) i); [f_equal; f_equal; lia|exact Hi|exact He|].
    intros j s' Hj Hs'. apply (Hpre (S j)); [lia|exact Hs'].
Qed.

(** X12: When element i of the parameter slice is the first whose copy into a fresh element fails, handleSliceUpdate leaves the model field unchanged and returns an element-i error wrapping that copy error. *)
Theorem handleSliceUpdate_element_error mf et pv srcs i s e :
  (typeof mf = TSlice et \/ typeof mf = TPtr et) ->
  len_index pv = Some srcs ->
  srcs !! i = Some s -> (copy_elem et s).2 = Some e ->
  (forall j s', (j < i)%nat -> srcs !! j = Some s' -> (copy_elem et s').2 = None) ->
  handleSliceUpdate mf pv = Some (mf, Some (ElementError i e)).
Proof.
  intros Ht Hl Hi He Hpre. unfold handleSliceUpdate.
  assert (Het : match typeof mf with TSlice e | TPtr e => Some e | _ => None end = Some et)
    by (destruct Ht as [-> | ->]; reflexivity).
  rewrite Het. simpl. rewrite Hl. simpl.
  rewrite (copy_elems_first_error et 0 srcs i s e Hi He Hpre). reflexivity.
Qed.

(** X13: When every element of the parameter slice copies without error into a fresh element of a struct element type, handleSliceUpdate sets the slice field to GetAllContentsWithUpdated of its elements and the copies, and returns no error. *)
Theorem handleSliceUpdate_merged et cur pv srcs :
  kind_of et = KStruct ->
  Forall (fun v => is_struct v = true) cur ->
  len_index pv = Some srcs ->
  (forall i s, srcs !! i = Some s -> (copy_elem et s).2 = None) ->
  handleSliceUpdate (VSlice et cur) pv =
    Some (VSlice et (GetAllContentsWithUpdated lang_of cur
                       ((fun s => (copy_elem et s).1) <$> srcs)), None).
Proof.
  intros Hk Hc Hl Hok. unfold handleSliceUpdate. simpl. rewrite Hl. simpl.
  rewrite (copy_elems_ok et 0 srcs Hok). unfold mergeContents. cbn [len_index mbind option_bind].
  rewrite put_langs_spec by done. simpl. rewrite put_langs_spec; [reflexivity|].
  apply Forall_fmap, Forall_forall. intros s _. unfold compose, is_struct.
  by rewrite copy_elem_typeof, Hk.
Qed.

Lemma mergeContents_union_witness :
  mergeContents (VSlice tBlogContent [old_en])
                (VSlice tBlogContent [blog_content "ar" (zero tLanguage) 0 0 "x" 0]) =
    Some (VSlice tBlogContent
            (GetAllContentsWithUpdated lang_of [old_en]
               [blog_content "ar" (zero tLanguage) 0 0 "x" 0])).
Proof. apply mergeContents_union; repeat constructor. Defined.

Lemma handleSliceUpdate_element_error_witness :
  handleSliceUpdate (VSlice tBlogContent [old_en])
    (VSlice tBlogContentParams [ar_param; VPtr tBlogContentParams None]) =
  Some (VSlice tBlogContent [old_en], Some (ElementError 1 NotStructs)).
Proof.
  apply (handleSliceUpdate_element_error _ tBlogContent _
           [ar_param; VPtr tBlogContentParams None] 1 (VPtr tBlogContentParams None)).
  - left. reflexivity.
  - reflexivity.
  - reflexivity.
  - reflexivity.
  - intros j s' Hj Hs. destruct j as [|j]; [|lia].
    injection Hs as <-. vm_compute. reflexivity.
Defined.

Lemma handleSliceUpdate_merged_witness :
  handleSliceUpdate (VSlice tBlogContent [old_en])
    (VSlice tBlogContentParams [ar_param]) =
  Some (VSlice tBlogContent (GetAllContentsWithUpdated lang_of [old_en]
          ((fun s => (copy_elem tBlogContent s).1) <$> [ar_param])), None).
Proof.
  apply handleSliceUpdate_merged.
  - reflexivity.
  - repeat constructor.
  - reflexivity.
  - intros i s Hs. destruct i as [|i]; [|discriminate].
    injection Hs as <-. vm_compute. reflexivity.
Defined.

End SliceProofs.

(* ================================================================== *)
(** ** Proofs: [FillModelFromCreateParameters] *)
(* ================================================================== *)

Module FillProofs.
Import GoReflect Engine Updater Filler Models Examples.

Lemma fill_elem_param e : fill_elem tBlogContent (param_of e) = (content_of e, None).
Proof. destruct e as [l c]. reflexivity. Qed.

Lemma fill_elems_params j entries :
  fill_elems tBlogContent j (param_of <$> entries) = inl (content_of <$> entries).
Proof.
  revert j. induction entries as [|e es IH]; intros j; [reflexivity|].
  rewrite !fmap_cons. cbn [fill_elems]. rewrite fill_elem_param, IH. reflexivity.
Qed.

(** X14: The Blog create parameters are the struct (Contents, Owner, IsPublished). Filling a Blog from them gives one BlogContent per entry, with LanguageID and Content set and the rest zero; Owner and IsPublished are copied and the ID and timestamps stay zero. *)
Theorem fill_blog_roundtrip entries owner published :
  GenerateCreateParameters tBlog = Some tBlogCreate /\
  FillModelFromCreateParameters tBlog (blog_create entries owner published) =
    Some (inl (blog 0 0 0 (content_of <$> entries) owner published)).
Proof.
  split; [vm_compute; reflexivity|].
  unfold FillModelFromCreateParameters. simpl.
  change (λ '(lang, text), VStruct tBlogContentParams [VStr lang; VStr text]) with param_of.
  rewrite fill_elems_params. reflexivity.
Qed.

(** X15: The BlogContent create parameters are (LanguageID, Content, BlogID). Filling a BlogContent from them sets the promoted ContentModel.LanguageID, the Content and the BlogID, and leaves the language and timestamps zero. *)
Theorem fill_blog_content_roundtrip lang text blogID :
  GenerateCreateParameters tBlogContent = Some tBlogContentCreate /\
  FillModelFromCreateParameters tBlogContent (blog_content_create lang text blogID) =
    Some (inl (blog_content lang (zero tLanguage) 0 0 text blogID)).
Proof. split; [vm_compute|]; reflexivity. Qed.

(** X16: The slice loop of FillModelFromCreateParameters either fills one element per source element, leaving the zero value for each nil pointer element, or stops at the first element whose copy fails and reports its index. *)
Theorem fill_elems_spec et j srcs :
  match fill_elems et j srcs with
  | inl ds =>
      length ds = length srcs /\
      forall i s, srcs !! i = Some s ->
        ds !! i = Some (fill_elem et s).1 /\ (is_nil_ptr s = true -> ds !! i = Some (zero et))
  | inr (k, e) =>
      exists i s, k = (j + i)%nat /\ srcs !! i = Some s /\ (fill_elem et s).2 = Some e /\
        forall i' s', (i' < i)%nat -> srcs !! i' = Some s' -> (fill_elem et s').2 = None
  end.
Proof.
  revert j. induction srcs as [|s rest IH]; intros j.
  - simpl. split; [done|]. intros i s H. discriminate.
  - cbn [fill_elems]. destruct (fill_elem et s) as [d [e|]] eqn:E.
    + exists 0%nat, s. rewrite E. split; [lia|]. split; [done|]. split; [done|]. intros; lia.
    + specialize (IH (S j)). destruct (fill_elems et (S j) rest) as [ds|[k e]].
      * destruct IH as [Hl Hi]. split; [simpl; lia|].
        intros [|i] s' Hs'.
        -- injection Hs' as <-. rewrite E. split; [done|]. simpl.
           intros Hn. destruct s as [| | | |t [w|]| |]; try discriminate. simpl in E. by simplify_eq.
        -- apply Hi. exact Hs'.
      * destruct IH as (i & s' & -> & Hs' & He & Hpre).
        exists (S i), s'. split; [lia|]. split; [exact Hs'|]. split; [exact He|].
        intros [|i'] s'' Hi' Hs''.
        -- injection Hs'' as <-. rewrite E. reflexivity.
        -- apply (Hpre i'); [lia|exact Hs''].
Qed.

End FillProofs.

(* ================================================================== *)
(** ** Proofs: the HTTP handlers *)
(* ================================================================== *)

Module HandlerProofs.
Import GoReflect Engine Updater Filler Repository Handlers Models Examples.

(** X17: A 201 from the Create handler carries the model filled from the parsed body, with the database trace Begin, Create, Commit. Parse and fill errors and panics come before any database call. CREATE_ERROR follows a failed Begin, a rolled-back Create or a failed Commit. *)
Theorem Create_handler_responses mt rb b r tr :
  Create_handler mt rb b = (r, tr) ->
  match r with
  | ObjectJSON s m =>
      s = 201%Z /\ tr = [EBegin; ECreate; ECommit] /\
      exists pt cp, GenerateCreateParameters mt = Some pt /\ rb pt = Some cp /\
                    FillModelFromCreateParameters mt cp = Some (inl m)
  | ErrorJSON s code =>
      s = 400%Z /\
      ((code = "PARSE_CREATE_PARAMS_ERROR" \/ code = "GENERATE_CREATE_MODEL_ERROR") /\ tr = [] \/
       code = "CREATE_ERROR" /\
       (tr = [EBegin] \/ tr = [EBegin; ECreate; ERollback] \/ tr = [EBegin; ECreate; ECommit]))
  | NoContent => False
  | Panic => tr = []
  end.
Proof.
  intros H. unfold Create_handler in H.
  destruct (GenerateCreateParameters mt) as [pt|] eqn:Eg; [|by simplify_eq].
  destruct (rb pt) as [cp|] eqn:Er; [|simplify_eq; split; [done|left; auto]].
  destruct (FillModelFromCreateParameters mt cp) as [[m|fe]|] eqn:Ef;
    [|simplify_eq; split; [done|left; auto]|by simplify_eq].
  unfold Create, rollback, commit in H.
  destruct (begin_err b); [simplify_eq; split; [done|right; auto]|].
  destruct (create_err b);
    [destruct (rollback_err b)|destruct (commit_err b)]; simplify_eq;
    try (split; [done|right; auto]).
  split; [done|]. split; [done|]. eauto.
Qed.

Lemma Create_handler_responses_witness :
  Create_handler tBlog (fun _ => Some (blog_create [("en", "hi")] "me" true)) all_ok =
    (ObjectJSON 201 (blog 0 0 0 [blog_content "en" (zero tLanguage) 0 0 "hi" 0] "me" true),
     [EBegin; ECreate; ECommit]) /\
  (201%Z = 201%Z /\ [EBegin; ECreate; ECommit] = [EBegin; ECreate; ECommit] /\
   exists pt cp, GenerateCreateParameters tBlog = Some pt /\
     (fun _ : gtype => Some (blog_create [("en", "hi")] "me" true)) pt = Some cp /\
     FillModelFromCreateParameters tBlog cp =
       Some (inl (blog 0 0 0 [blog_content "en" (zero tLanguage) 0 0 "hi" 0] "me" true))).
Proof.
  split; [vm_compute; reflexivity|].
  exact (Create_handler_responses tBlog (fun _ => Some (blog_create [("en", "hi")] "me" true)) all_ok
           _ _ ltac:(vm_compute; reflexivity)).
Defined.

(** X18: A 200 from the UpdatePatch handler carries the model updated from the parsed body. Its trace is the never-closed GetByID transaction (Begin, optional Preload of Contents, First) then Begin, Save, Commit. Only UPDATE_ERROR may follow a commit or rollback. *)
Theorem UpdatePatch_handler_responses mt bget bupd loaded rb r tr :
  UpdatePatch_handler mt bget bupd loaded rb = (r, tr) ->
  match r with
  | ObjectJSON s m =>
      s = 200%Z /\
      (exists pre, (pre = [] \/ pre = [EPreload "Contents"]) /\
                   tr = EBegin :: (pre ++ [EFirst; EBegin; ESave; ECommit])%list) /\
      exists pt up, GenerateUpdateParameters mt = Some pt /\ rb pt = Some up /\
                    UpdateModelFromUpdateParameters loaded up = Some (m, None)
  | ErrorJSON s code =>
      s = 400%Z /\ (code <> "UPDATE_ERROR" -> (ECommit ∉ tr) /\ (ERollback ∉ tr))
  | NoContent => False
  | Panic => (ECommit ∉ tr) /\ (ERollback ∉ tr)
  end.
Proof.
  intros H. unfold UpdatePatch_handler, repo_GetByID, GetByID in H.
  destruct (begin_err bget) eqn:Eb.
  { simplify_eq. split; [done|]. intros _. set_solver. }
  destruct (hasContents mt) as [pre|]; [|simplify_eq; set_solver].
  cbn [mbind option_bind] in H.
  assert (Htr1 : forall x, x ∈ EBegin :: ((if pre then [EPreload "Contents"] else []) ++ [EFirst])%list ->
                 x <> ECommit /\ x <> ERollback)
    by (destruct pre; simpl; intros x Hx; set_solver).
  destruct (first_err bget); simpl in H.
  { simplify_eq. split; [done|]. intros _. split; intros Hx; apply Htr1 in Hx; tauto. }
  destruct (GenerateUpdateParameters mt) as [pt|] eqn:Eg;
    [|simplify_eq; split; intros Hx; apply Htr1 in Hx; tauto].
  destruct (rb pt) as [up|] eqn:Er;
    [|simplify_eq; split; [done|]; intros _; split; intros Hx; apply Htr1 in Hx; tauto].
  destruct (UpdateModelFromUpdateParameters loaded up) as [[m [ue|]]|] eqn:Eu;
    [simplify_eq; split; [done|]; intros _; split; intros Hx; apply Htr1 in Hx; tauto| |
     simplify_eq; split; intros Hx; apply Htr1 in Hx; tauto].
  destruct (model_id m); [|simplify_eq; split; intros Hx; apply Htr1 in Hx; tauto].
  destruct (Update bupd) as [tr2 err] eqn:Eup.
  destruct err; simplify_eq; [split; [done|]; intros Hne; congruence|].
  unfold Update, rollback, commit in Eup.
  destruct (begin_err bupd); [discriminate|].
  destruct (save_err bupd); [destruct (rollback_err bupd); discriminate|].
  destruct (commit_err bupd); [discriminate|]. injection Eup as <-.
  split; [done|]. split.
  - exists (if pre then [EPreload "Contents"] else []). split; [destruct pre; auto|].
    rewrite <- app_assoc. reflexivity.
  - eauto.
Qed.

Lemma UpdatePatch_handler_responses_witness :
  UpdatePatch_handler tBlog all_ok all_ok (blog 1 0 0 [old_en] "o" true)
    (fun _ => Some (blog_contents_update [("en", "new")])) =
    (ObjectJSON 200 (blog 1 0 0 [blog_content "en" (zero tLanguage) 0 0 "new" 0] "o" true),
     [EBegin; EPreload "Contents"; EFirst; EBegin; ESave; ECommit]) /\
  (200%Z = 200%Z /\
   (exists pre, (pre = [] \/ pre = [EPreload "Contents"]) /\
      [EBegin; EPreload "Contents"; EFirst; EBegin; ESave; ECommit] =
        EBegin :: (pre ++ [EFirst; EBegin; ESave; ECommit])%list) /\
   exists pt up, GenerateUpdateParameters tBlog = Some pt /\
     (fun _ : gtype => Some (blog_contents_update [("en", "new")])) pt = Some up /\
     UpdateModelFromUpdateParameters (blog 1 0 0 [old_en] "o" true) up =
       Some (blog 1 0 0 [blog_content "en" (zero tLanguage) 0 0 "new" 0] "o" true, None)).
Proof.
  split; [vm_compute; reflexivity|].
  exact (UpdatePatch_handler_responses tBlog all_ok all_ok (blog 1 0 0 [old_en] "o" true)
           (fun _ => Some (blog_contents_update [("en", "new")])) _ _ ltac:(vm_compute; reflexivity)).
Defined.

(** X19: The GetByID and GetAll handlers never commit or roll back the transaction the repository begins. They answer 200 exactly when the id parses (GetByID), Begin and First or Find succeed, and hasContents does not panic. *)
Theorem read_handlers_never_close (mt : gtype) (id : option Z) (b : backend)
  (loaded : gvalue) (loadeds : list gvalue) :
  (ECommit ∉ (GetByID_handler mt id b loaded).2) /\ (ERollback ∉ (GetByID_handler mt id b loaded).2) /\
  (ECommit ∉ (GetAll_handler mt b loadeds).2) /\ (ERollback ∉ (GetAll_handler mt b loadeds).2) /\
  ((GetByID_handler mt id b loaded).1 = ObjectJSON 200 loaded <->
     id <> None /\ begin_err b = None /\ first_err b = None /\ hasContents mt <> None) /\
  ((GetAll_handler mt b loadeds).1 = ObjectJSON 200 (VSlice mt loadeds) <->
     begin_err b = None /\ find_err b = None /\ hasContents (TSlice mt) <> None).
Proof.
  unfold GetByID_handler, GetAll_handler, repo_GetByID, repo_GetAll, GetByID, GetAll.
  destruct (begin_err b), id, (hasContents mt) as [[]|], (hasContents (TSlice mt)) as [[]|], (first_err b), (find_err b);
    cbn; repeat split; try set_solver; try congruence; intuition congruence.
Qed.

(** X20: The Delete handler answers 204 No Content exactly when Begin, First, Delete and Commit all succeed, and DELETE_ERROR otherwise. Its trace contains a commit exactly when Begin, First and Delete succeeded. *)
Theorem Delete_handler_spec (b : backend) :
  ((Delete_handler b).1 = NoContent <->
     begin_err b = None /\ first_err b = None /\ delete_err b = None /\ commit_err b = None) /\
  ((Delete_handler b).1 = NoContent \/ (Delete_handler b).1 = ErrorJSON 400 "DELETE_ERROR") /\
  (ECommit ∈ (Delete_handler b).2 <-> begin_err b = None /\ first_err b = None /\ delete_err b = None).
Proof.
  unfold Delete_handler, Delete, rollback, commit.
  destruct (begin_err b), (first_err b), (delete_err b), (commit_err b), (rollback_err b);
    cbn; repeat split; try set_solver; try (intuition congruence).
Qed.

End HandlerProofs.
